(** * Message passing layers of the DGL blitz notebooks

    A shallow embedding of the code cells of
    [blitz_intro/3_message_passing.ipynb] (the [SAGEConv] and
    [WeightedSAGEConv] modules, [u_mul_e_udf], [mean_udf]) and of
    [blitz_intro/4_link_predict.ipynb] ([DotPredictor] and the
    negative-edge sampling cell).

    Tensors hold exact rationals: the arithmetic of the notebooks is
    floating point, which is idealised here.  A graph is the state of a
    small state-and-exception monad, since the modules write to
    [g.ndata] and [g.edata] and the calls they make can raise.

    The notebooks are made of calls to [torch], [dgl], [numpy] and
    [scipy], which are not part of the repository.  The modules
    [torch], [nn], [fn], [dgl] and [np] below hold the calls that the
    notebooks make, after what the notebooks and the specification say
    of them and after the documented behaviour of the libraries; the
    code of the notebooks itself follows from [SAGEConv] on. *)

From Stdlib Require Import QArith ZArith List Lia.
From stdpp Require Import gmap strings list fin_maps.

(** ** Exceptions and results *)

(** The exception classes that the calls of the notebooks raise. *)
Inductive exn : Type :=
| DGLError
| RuntimeError
| KeyError
| IndexError
| ValueError
| AssertionError.

Definition exn_name (e : exn) : string :=
  match e with
  | DGLError => "DGLError"%string
  | RuntimeError => "RuntimeError"%string
  | KeyError => "KeyError"%string
  | IndexError => "IndexError"%string
  | ValueError => "ValueError"%string
  | AssertionError => "AssertionError"%string
  end.

Inductive result (A : Type) : Type :=
| Ok (a : A)
| Raise (e : exn).

Arguments Ok {A} a.
Arguments Raise {A} e.

Definition rbind {A B} (r : result A) (k : A -> result B) : result B :=
  match r with
  | Ok a => k a
  | Raise e => Raise e
  end.

Notation "x <~ r ; k" := (rbind r (fun x => k))
  (at level 100, r at next level, right associativity).

Definition is_ok {A} (r : result A) : bool :=
  match r with Ok _ => true | Raise _ => false end.

(** ** Vectors of scalars *)

Definition vzero (d : nat) : list Q := repeat 0%Q d.

Definition vadd (a b : list Q) : list Q := zip_with Qplus a b.

Definition vscale_div (a : list Q) (n : nat) : list Q :=
  map (fun x => (x / inject_Z (Z.of_nat n))%Q) a.

(** Sum of a stack of vectors, accumulated from the zero vector in the
    order of the stack. *)
Definition vsum (d : nat) (vs : list (list Q)) : list Q :=
  fold_left vadd vs (vzero d).

(** [(a * b).sum(-1)] on two vectors. *)
Definition dot (a b : list Q) : Q :=
  fold_left Qplus (zip_with Qmult a b) 0%Q.

(** ** Tensors (the part of [torch] the notebooks use) *)

Module torch.

(** A two-dimensional tensor of shape [(nrows, cols)].  The number of
    columns is kept beside the rows, so that a tensor with no rows still
    has a width, as [torch.ones(0, 1)] has. *)
Record Tensor : Type := mkTensor { cols : nat; rows : list (list Q) }.

Definition nrows (t : Tensor) : nat := length (rows t).

Definition shape (t : Tensor) : nat * nat := (nrows t, cols t).

(** Every row has the declared width. *)
Definition is_tensor (t : Tensor) : bool :=
  forallb (fun r => length r =? cols t) (rows t).

Definition zeros (n d : nat) : Tensor := mkTensor d (repeat (vzero d) n).

Definition ones (n d : nat) : Tensor := mkTensor d (repeat (repeat 1%Q d) n).

(** [torch.cat([a, b], dim=1)]: the row counts must agree. *)
Definition cat (a b : Tensor) : result Tensor :=
  if nrows a =? nrows b
  then Ok (mkTensor (cols a + cols b) (zip_with app (rows a) (rows b)))
  else Raise RuntimeError.

(** [t[idx]]: rows selected by a list of indices; an index out of range
    raises. *)
Fixpoint index_rows (rs : list (list Q)) (idx : list nat) : result (list (list Q)) :=
  match idx with
  | [] => Ok []
  | i :: idx' =>
      match rs !! i with
      | Some r => rest <~ index_rows rs idx' ; Ok (r :: rest)
      | None => Raise IndexError
      end
  end.

Definition index_select (t : Tensor) (idx : list nat) : result Tensor :=
  rs <~ index_rows (rows t) idx ; Ok (mkTensor (cols t) rs).

(** [a * b] on two tensors with the same number of rows, broadcasting a
    width of one on either side. *)
Definition mul_row (a b : list Q) : list Q :=
  if length a =? length b then zip_with Qmult a b
  else match b with
       | [s] => map (fun x => (x * s)%Q) a
       | _ => match a with
              | [s] => map (fun y => (s * y)%Q) b
              | _ => []
              end
       end.

Definition broadcastable (d k : nat) : bool :=
  (d =? k) || (k =? 1) || (d =? 1).

(** The broadcast width: the side that is not one. *)
Definition bwidth (d k : nat) : nat := if d =? 1 then k else d.

Definition mul (e : exn) (a b : Tensor) : result Tensor :=
  if negb (nrows a =? nrows b) then Raise e
  else if broadcastable (cols a) (cols b)
  then Ok (mkTensor (bwidth (cols a) (cols b)) (zip_with mul_row (rows a) (rows b)))
  else Raise e.

(** [t[:, 0]]: the first column, as a one-dimensional tensor. *)
Definition column0 (t : Tensor) : result (list Q) :=
  if cols t =? 0 then Raise IndexError
  else Ok (map (fun r => hd 0%Q r) (rows t)).

(** A three-dimensional tensor of shape [(n, dim1, dim2)], as the
    mailbox of a group of [n] nodes that each received [dim1] messages
    of width [dim2]. *)
Record Tensor3 : Type := mkTensor3 {
  dim1 : nat;
  dim2 : nat;
  items : list (list (list Q))
}.

(** [t.mean(1)]: the sum along the second dimension divided by its
    size.  (On an empty dimension torch gives nan; the division by zero
    of the rationals gives zero instead.) *)
Definition mean1 (t : Tensor3) : Tensor :=
  mkTensor (dim2 t) (map (fun vs => vscale_div (vsum (dim2 t) vs) (dim1 t)) (items t)).

(** [F.relu]. *)
Definition relu (t : Tensor) : Tensor :=
  mkTensor (cols t) (map (map (fun x => if Qle_bool 0 x then x else 0%Q)) (rows t)).

End torch.

Import torch.

(** ** [nn.Linear] *)

Module nn.

(** The learnable parameters of [nn.Linear(in_features, out_features)]:
    a weight of shape [(out_features, in_features)] and a bias of
    length [out_features]. *)
Record Linear : Type := mkLinear {
  in_features : nat;
  out_features : nat;
  weight : list (list Q);
  bias : list Q
}.

(** The parameters have the shapes the constructor gives them. *)
Definition Linear_ok (l : Linear) : bool :=
  (length (weight l) =? out_features l)
  && forallb (fun w => length w =? in_features l) (weight l)
  && (length (bias l) =? out_features l).

(** One row of [x @ weight.T + bias]. *)
Definition affine (l : Linear) (x : list Q) : list Q :=
  zip_with (fun w b => (dot x w + b)%Q) (weight l) (bias l).

Definition Linear_forward (l : Linear) (x : Tensor) : result Tensor :=
  if cols x =? in_features l
  then Ok (mkTensor (out_features l) (map (affine l) (rows x)))
  else Raise RuntimeError.

End nn.

Import nn.

(** ** Built-in message and reduce functions ([dgl.function]) *)

Module fn.

(** [fn.copy_u(u, out)], [fn.u_mul_e(lhs, rhs, out)] and
    [fn.u_dot_v(lhs, rhs, out)]: the built-in functions on edges that the
    notebooks pass to [update_all] and [apply_edges]. *)
Inductive message_func : Type :=
| copy_u (u out : string)
| u_mul_e (lhs rhs out : string)
| u_dot_v (lhs rhs out : string).

(** [fn.mean(msg, out)], the one reducer the notebooks use. *)
Inductive reduce_func : Type :=
| mean (msg out : string).

End fn.

(** ** Graphs and their feature frames ([dgl]) *)

Module dgl.

(** A graph: node ids [0 .. num_nodes - 1], the edges in edge-id order
    as (source, destination) pairs, and the two feature frames
    [g.ndata] and [g.edata], dictionaries from a field name to a tensor
    with one row per node, or per edge. *)
Record DGLGraph : Type := mkGraph {
  num_nodes : nat;
  edges : list (nat * nat);
  ndata : gmap string Tensor;
  edata : gmap string Tensor
}.

Definition num_edges (g : DGLGraph) : nat := length (edges g).

(** The invariant of the data model: edge endpoints are node ids. *)
Definition valid_graph (g : DGLGraph) : bool :=
  forallb (fun e => (fst e <? num_nodes g) && (snd e <? num_nodes g)) (edges g).

(** [dgl.graph((u, v), num_nodes=n)], as the link-prediction notebook
    builds its positive and negative graphs.  The invariant of the data
    model is enforced here: the library refuses endpoint lists of
    different lengths and node ids that are not below [n], so that a
    graph that reaches a layer has it. *)
Definition graph (u v : list nat) (n : nat) : result DGLGraph :=
  if negb (length u =? length v) then Raise DGLError
  else if forallb (fun i => i <? n) (u ++ v)
  then Ok (mkGraph n (zip u v) ∅ ∅)
  else Raise DGLError.

Definition with_ndata (g : DGLGraph) (nd : gmap string Tensor) : DGLGraph :=
  mkGraph (num_nodes g) (edges g) nd (edata g).

Definition with_edata (g : DGLGraph) (ed : gmap string Tensor) : DGLGraph :=
  mkGraph (num_nodes g) (edges g) (ndata g) ed.

(** *** Computations on a graph

    A method call on [g] starts from the graph as it is, returns a value
    or raises, and leaves the graph as the call has made it: what was
    written before an exception stays written. *)
Definition M (A : Type) : Type := DGLGraph -> result A * DGLGraph.

Definition ret {A} (a : A) : M A := fun g => (Ok a, g).

Definition bind {A B} (m : M A) (k : A -> M B) : M B := fun g =>
  match m g with
  | (Ok a, g') => k a g'
  | (Raise e, g') => (Raise e, g')
  end.

Definition lift {A} (r : result A) : M A := fun g => (r, g).

Definition get {A} (f : DGLGraph -> A) : M A := fun g => (Ok (f g), g).

(** [g.ndata[k] = t]: the tensor must have one row per node. *)
Definition set_ndata (k : string) (t : Tensor) : M unit := fun g =>
  if nrows t =? num_nodes g
  then (Ok tt, with_ndata g (<[k := t]> (ndata g)))
  else (Raise DGLError, g).

(** [g.edata[k] = t]: the tensor must have one row per edge. *)
Definition set_edata (k : string) (t : Tensor) : M unit := fun g =>
  if nrows t =? num_edges g
  then (Ok tt, with_edata g (<[k := t]> (edata g)))
  else (Raise DGLError, g).

(** [g.ndata[k]] and [g.edata[k]]. *)
Definition get_ndata (k : string) : M Tensor := fun g =>
  match ndata g !! k with
  | Some t => (Ok t, g)
  | None => (Raise KeyError, g)
  end.

Definition get_edata (k : string) : M Tensor := fun g =>
  match edata g !! k with
  | Some t => (Ok t, g)
  | None => (Raise KeyError, g)
  end.

(** Modelled from the spec: [g.local_scope()] belongs to the graph
    library, whose code is not in the repository.  The spec has it as a
    scoped temporary overlay of the feature frames that is discarded on
    every exit path, error paths included: the body runs on the graph
    as it is, and whether it returns or raises, the two frames are put
    back as they were on entry. *)
Definition local_scope {A} (body : M A) : M A := fun g =>
  let (r, g') := body g in
  (r, mkGraph (num_nodes g') (edges g') (ndata g) (edata g)).

(** *** Message passing *)

Definition lookup_field (fr : gmap string Tensor) (k : string) : result Tensor :=
  match fr !! k with
  | Some t => Ok t
  | None => Raise KeyError
  end.

(** The message phase: one row per edge, in edge-id order, under the
    output field name of the message function.
    - [copy_u]: the feature of the source node;
    - [u_mul_e]: the feature of the source node times the feature of the
      edge, element-wise, a width of one being broadcast;
    - [u_dot_v]: the dot product of the features of the two endpoints,
      a one-element vector per edge.

    This describes the library on features of positive width.  On a
    graph with an edge the kernels of the library refuse a feature of
    width zero, which is not a contiguous tensor; the properties of the
    layers are stated for features of positive width. *)
Definition messages (g : DGLGraph) (mf : fn.message_func) : result (string * Tensor) :=
  match mf with
  | fn.copy_u u out =>
      h <~ lookup_field (ndata g) u ;
      hu <~ index_select h (map fst (edges g)) ;
      Ok (out, hu)
  | fn.u_mul_e lhs rhs out =>
      h <~ lookup_field (ndata g) lhs ;
      w <~ lookup_field (edata g) rhs ;
      hu <~ index_select h (map fst (edges g)) ;
      m <~ torch.mul DGLError hu w ;
      Ok (out, m)
  | fn.u_dot_v lhs rhs out =>
      h <~ lookup_field (ndata g) lhs ;
      h' <~ lookup_field (ndata g) rhs ;
      hu <~ index_select h (map fst (edges g)) ;
      hv <~ index_select h' (map snd (edges g)) ;
      if cols hu =? cols hv
      then Ok (out, mkTensor 1 (zip_with (fun a b => [dot a b]) (rows hu) (rows hv)))
      else Raise DGLError
  end.

(** [g.in_edges(v)] and [g.in_degrees()]. *)
Definition in_edges (g : DGLGraph) (v : nat) : list (nat * nat) :=
  filter (fun e => snd e = v) (edges g).

Definition in_degree (g : DGLGraph) (v : nat) : nat := length (in_edges g v).

Definition in_degrees (g : DGLGraph) : list nat :=
  map (in_degree g) (seq 0 (num_nodes g)).

(** [acc[idx[e]] += src[e]] for every edge [e], in edge-id order. *)
Definition scatter_add (acc : list (list Q)) (idx : list nat) (src : list (list Q))
  : list (list Q) :=
  fold_left (fun a im => alter (fun r => vadd r (snd im)) (fst im) a) (zip idx src) acc.

Definition clamp (x lo hi : nat) : nat := Nat.min (Nat.max x lo) hi.

(** Modelled from the spec: the [mean] reducer belongs to the graph
    library, whose code is not in the repository.  The spec has it
    reduce the incoming messages of every destination node to their
    mean, and give the zero vector to a node with no incoming edge.
    The library computes it as written here: the messages are summed
    into one zero-initialised row per node, and each row is divided by
    the in-degree of its node, clamped to at least one. *)
Definition reduce_mean (g : DGLGraph) (msgs : Tensor) : Tensor :=
  let ret := scatter_add (rows (zeros (num_nodes g) (cols msgs)))
                         (map snd (edges g)) (rows msgs) in
  let deg := map (fun d => clamp d 1 (Nat.max (num_edges g) 1)) (in_degrees g) in
  mkTensor (cols msgs) (zip_with vscale_div ret deg).

(** [g.update_all(message_func, reduce_func)]: the message function is
    run on all edges, the reducer on the messages under its input field,
    and the result is stored as a node feature under the output field
    of the reducer. *)
Definition update_all (mf : fn.message_func) (rf : fn.reduce_func) : M unit := fun g =>
  match messages g mf, rf with
  | Raise e, _ => (Raise e, g)
  | Ok (name, msgs), fn.mean msg out =>
      if String.eqb name msg
      then (Ok tt, with_ndata g (<[out := reduce_mean g msgs]> (ndata g)))
      else (Raise KeyError, g)
  end.

(** [g.apply_edges(func)]: the function is run on all edges and its
    result stored as an edge feature. *)
Definition apply_edges (mf : fn.message_func) : M unit := fun g =>
  match messages g mf with
  | Raise e => (Raise e, g)
  | Ok (name, msgs) => (Ok tt, with_edata g (<[name := msgs]> (edata g)))
  end.

(** *** Batches for user-defined functions

    A user-defined message function receives the edges as a batch with
    members [src], [dst] and [data]: the source node features, the
    destination node features and the edge features of all edges.  A
    user-defined reducer receives a group of nodes of one in-degree,
    the incoming messages of each stacked along the second dimension
    of [mailbox]. *)
Record EdgeBatch : Type := mkEdgeBatch {
  src : gmap string Tensor;
  dst : gmap string Tensor;
  data : gmap string Tensor
}.

Record NodeBatch : Type := mkNodeBatch {
  mailbox : gmap string Tensor3
}.

Definition select_opt (idx : list nat) (t : Tensor) : option Tensor :=
  match index_select t idx with
  | Ok t' => Some t'
  | Raise _ => None
  end.

Definition edge_batch (g : DGLGraph) : EdgeBatch :=
  mkEdgeBatch (omap (select_opt (map fst (edges g))) (ndata g))
              (omap (select_opt (map snd (edges g))) (ndata g))
              (edata g).

(** The messages that node [v] receives, in edge-id order. *)
Definition in_messages (g : DGLGraph) (msgs : list (list Q)) (v : nat) : list (list Q) :=
  map snd (filter (fun em => snd (fst em) = v) (zip (edges g) msgs)).

(** The nodes of in-degree [d], in increasing order. *)
Definition bucket (g : DGLGraph) (d : nat) : list nat :=
  filter (fun v => in_degree g v = d) (seq 0 (num_nodes g)).

Definition node_batch (g : DGLGraph) (name : string) (msgs : Tensor) (d : nat) : NodeBatch :=
  mkNodeBatch {[ name := mkTensor3 d (cols msgs)
                           (map (in_messages g (rows msgs)) (bucket g d)) ]}.

(** *** Removing edges *)

(** The entries of a list whose positions are not among [eids], in
    their order. *)
Definition keep_rows {A} (eids : list nat) (l : list A) : list A :=
  map snd (filter (fun ix => fst ix ∉ eids) (zip (seq 0 (length l)) l)).

(** [dgl.remove_edges(g, eids)]: a new graph on the same nodes, without
    the edges of the given ids, which must exist: the library asserts
    that they lie below the number of edges.  The node features are
    kept, and of every edge feature the rows of the edges that stay. *)
Definition remove_edges (g : DGLGraph) (eids : list nat) : result DGLGraph :=
  if forallb (fun i => i <? num_edges g) eids
  then Ok (mkGraph (num_nodes g) (keep_rows eids (edges g)) (ndata g)
             ((fun t => mkTensor (cols t) (keep_rows eids (rows t))) <$> edata g))
  else Raise AssertionError.

End dgl.

Import dgl.

Notation "x <- m ;; k" := (bind m (fun x => k))
  (at level 100, m at next level, right associativity).
Notation "m ;; k" := (bind m (fun _ => k))
  (at level 100, right associativity).

(** ** [3_message_passing.ipynb]: the GraphSAGE convolution modules *)

Module SAGEConv.

(** The module holds one submodule, [self.linear]. *)
Record t : Type := mk { linear : Linear }.

(** [__init__(self, in_feat, out_feat)]: a linear submodule projecting
    the input and neighbour feature to the output.  The initial weight
    and bias, which [nn.Linear] draws at random, are arguments here. *)
Definition init (in_feat out_feat : nat) (W : list (list Q)) (b : list Q) : t :=
  mk (mkLinear (in_feat * 2) out_feat W b).

(** The first three statements of the body of [forward], which leave
    the aggregated neighbour feature [h_N], in the same scope. *)
Definition aggregate (h : Tensor) : M Tensor :=
  local_scope (
    set_ndata "h" h ;;
    update_all (fn.copy_u "h" "m") (fn.mean "m" "h_N") ;;
    get_ndata "h_N").

(** The statements under [with g.local_scope():] in [forward]. *)
Definition body (self : t) (h : Tensor) : M Tensor :=
  set_ndata "h" h ;;
  update_all (fn.copy_u "h" "m") (fn.mean "m" "h_N") ;;
  h_N <- get_ndata "h_N" ;;
  h_total <- lift (torch.cat h h_N) ;;
  lift (Linear_forward (linear self) h_total).

(** [forward(self, g, h)]. *)
Definition forward (self : t) (h : Tensor) : M Tensor :=
  local_scope (body self h).

End SAGEConv.

Module WeightedSAGEConv.

Record t : Type := mk { linear : Linear }.

Definition init (in_feat out_feat : nat) (W : list (list Q)) (b : list Q) : t :=
  mk (mkLinear (in_feat * 2) out_feat W b).

(** The first four statements of the body of [forward], which leave
    the aggregated neighbour feature [h_N], in the same scope. *)
Definition aggregate (h w : Tensor) : M Tensor :=
  local_scope (
    set_ndata "h" h ;;
    set_edata "w" w ;;
    update_all (fn.u_mul_e "h" "w" "m") (fn.mean "m" "h_N") ;;
    get_ndata "h_N").

(** The statements under [with g.local_scope():] in [forward]. *)
Definition body (self : t) (h w : Tensor) : M Tensor :=
  set_ndata "h" h ;;
  set_edata "w" w ;;
  update_all (fn.u_mul_e "h" "w" "m") (fn.mean "m" "h_N") ;;
  h_N <- get_ndata "h_N" ;;
  h_total <- lift (torch.cat h h_N) ;;
  lift (Linear_forward (linear self) h_total).

(** [forward(self, g, h, w)]. *)
Definition forward (self : t) (h w : Tensor) : M Tensor :=
  local_scope (body self h w).

End WeightedSAGEConv.

(** The first [Model] of the notebook: two [SAGEConv] layers with a
    rectified-linear unit between them. *)
Module Model.

Record t : Type := mk { conv1 : SAGEConv.t; conv2 : SAGEConv.t }.

Definition forward (self : t) (in_feat : Tensor) : M Tensor :=
  h <- SAGEConv.forward (conv1 self) in_feat ;;
  h <- ret (torch.relu h) ;;
  h <- SAGEConv.forward (conv2 self) h ;;
  ret h.

(** [__init__(self, in_feats, h_feats, num_classes)], with the initial
    parameters of the two layers as arguments. *)
Definition init (in_feats h_feats num_classes : nat)
    (W1 : list (list Q)) (b1 : list Q) (W2 : list (list Q)) (b2 : list Q) : t :=
  mk (SAGEConv.init in_feats h_feats W1 b1) (SAGEConv.init h_feats num_classes W2 b2).

End Model.

(** The second [Model] of the notebook, which takes the place of the
    first: two [WeightedSAGEConv] layers, every edge weight set to one. *)
Module WeightedModel.

Record t : Type := mk { conv1 : WeightedSAGEConv.t; conv2 : WeightedSAGEConv.t }.

Definition forward (self : t) (in_feat : Tensor) : M Tensor :=
  n <- get num_edges ;;
  h <- WeightedSAGEConv.forward (conv1 self) in_feat (torch.ones n 1) ;;
  h <- ret (torch.relu h) ;;
  n <- get num_edges ;;
  h <- WeightedSAGEConv.forward (conv2 self) h (torch.ones n 1) ;;
  ret h.

End WeightedModel.

(** The user-defined message function of the notebook, which it gives
    as the equivalent of [fn.u_mul_e('h', 'w', 'm')]. *)
Definition u_mul_e_udf (edges : EdgeBatch) : result (gmap string Tensor) :=
  h <~ lookup_field (src edges) "h" ;
  w <~ lookup_field (data edges) "w" ;
  m <~ torch.mul RuntimeError h w ;
  Ok {[ "m"%string := m ]}.

(** The user-defined reducer of the notebook, which it gives as the
    equivalent of [fn.mean('m', 'h_N')]. *)
Definition mean_udf (nodes : NodeBatch) : result (gmap string Tensor) :=
  match mailbox nodes !! "m"%string with
  | Some mb => Ok {[ "h_N"%string := torch.mean1 mb ]}
  | None => Raise KeyError
  end.

(** ** [4_link_predict.ipynb] *)

Module DotPredictor.

(** The statements under [with g.local_scope():] in [forward]: a new
    edge feature named 'score', the dot product of the source and the
    destination node feature 'h'; [u_dot_v] returns a one-element
    vector per edge, of which the only element is taken. *)
Definition body (h : Tensor) : M (list Q) :=
  set_ndata "h" h ;;
  apply_edges (fn.u_dot_v "h" "h" "score") ;;
  score <- get_edata "score" ;;
  lift (torch.column0 score).

(** [forward(self, g, h)]. *)
Definition forward (h : Tensor) : M (list Q) :=
  local_scope (body h).

End DotPredictor.

Module MLPPredictor.

(** The module holds the two linear submodules [W1] and [W2]. *)
Record t : Type := mk { W1 : Linear; W2 : Linear }.

(** [__init__(self, h_feats)], with the initial parameters of the two
    submodules as arguments. *)
Definition init (h_feats : nat)
    (A1 : list (list Q)) (c1 : list Q) (A2 : list (list Q)) (c2 : list Q) : t :=
  mk (mkLinear (h_feats * 2) h_feats A1 c1) (mkLinear h_feats 1 A2 c2).

(** What [squeeze(1)] returns: a tensor of one dimension when the
    second dimension has size one, and the tensor itself otherwise. *)
Inductive squeezed : Type :=
| Squeezed (s : list Q)
| Unsqueezed (x : Tensor).

Definition squeeze1 (x : Tensor) : squeezed :=
  if cols x =? 1 then Squeezed (map (fun r => hd 0%Q r) (rows x)) else Unsqueezed x.

(** [apply_edges(self, edges)]: a scalar score for each edge of the
    batch, from the features of its source and of its destination. *)
Definition apply_edges (self : t) (edges : EdgeBatch) : result (gmap string squeezed) :=
  hs <~ lookup_field (src edges) "h" ;
  hd <~ lookup_field (dst edges) "h" ;
  h <~ torch.cat hs hd ;
  z <~ Linear_forward (W1 self) h ;
  s <~ Linear_forward (W2 self) (torch.relu z) ;
  Ok {[ "score"%string := squeeze1 s ]}.

End MLPPredictor.

(** *** The negative-edge sampling cell *)

Module np.

(** A dense two-dimensional array, given by its shape and its entries.
    The arrays of the cell hold small whole numbers (counts of edges,
    ones and zeros), kept here as integers. *)
Record matrix : Type := mkMatrix {
  nr : nat;
  nc : nat;
  entry : nat -> nat -> Z
}.

(** [sp.coo_matrix((np.ones(len(u)), (u, v))).todense()]: the shape is
    inferred from the largest indices, which fails on empty index
    arrays, and the entries given for one position are summed. *)
Definition coo_todense (u v : list nat) : result matrix :=
  match u with
  | [] => Raise ValueError
  | _ =>
      Ok (mkMatrix (S (max_list u)) (S (max_list v))
            (fun i j => Z.of_nat (length (filter (fun e => e = (i, j)) (zip u v)))))
  end.

(** [np.eye(n)]. *)
Definition eye (n : nat) : matrix :=
  mkMatrix n n (fun i j => if i =? j then 1%Z else 0%Z).

(** [c - a] for a number [c]. *)
Definition rsub (c : Z) (a : matrix) : matrix :=
  mkMatrix (nr a) (nc a) (fun i j => (c - entry a i j)%Z).

(** Broadcasting of one dimension: equal sizes, or one of them is 1. *)
Definition bdim (x y : nat) : option nat :=
  if x =? y then Some x
  else if x =? 1 then Some y
  else if y =? 1 then Some x
  else None.

Definition bidx (x i : nat) : nat := if x =? 1 then 0 else i.

(** [a - b], with broadcasting. *)
Definition sub (a b : matrix) : result matrix :=
  match bdim (nr a) (nr b), bdim (nc a) (nc b) with
  | Some r, Some c =>
      Ok (mkMatrix r c
            (fun i j => (entry a (bidx (nr a) i) (bidx (nc a) j)
                         - entry b (bidx (nr b) i) (bidx (nc b) j))%Z))
  | _, _ => Raise ValueError
  end.

(** [np.where(a != 0)]: the positions of the non-zero entries, row by
    row, as a pair of index arrays. *)
Definition nonzero (a : matrix) : list (nat * nat) :=
  flat_map (fun i =>
    flat_map (fun j => if Z.eqb (entry a i j) 0 then [] else [(i, j)]) (seq 0 (nc a)))
    (seq 0 (nr a)).

Definition where_ne0 (a : matrix) : list nat * list nat :=
  (map fst (nonzero a), map snd (nonzero a)).

(** [np.random.choice(n, size)] draws [size] indices below [n], with
    replacement by default: every list of that length with entries
    below [n] is a possible outcome, and there is none, the call
    raising, when [n] is zero and [size] is not.  [choice] takes the
    outcome of the draw as an argument and does not check it: the
    properties of the sampling cell are stated for the possible
    outcomes, under the hypothesis [choice_outcome]. *)
Definition choice_outcome (n size : nat) (outcome : list nat) : bool :=
  (length outcome =? size) && forallb (fun i => i <? n) outcome.

Definition choice (n size : nat) (outcome : list nat) : result (list nat) :=
  if (n =? 0) && negb (size =? 0) then Raise ValueError else Ok outcome.

(** [a[idx]] on a one-dimensional array, for indices in range, where
    numpy raises [IndexError] on an index out of range: the cells
    index with the outcomes of [choice] and of the permutation, which
    are in range. *)
Definition take (a idx : list nat) : list nat := map (fun i => nth i a 0) idx.

(** [np.random.permutation(np.arange(n))] returns the numbers below
    [n] in some order: a possible outcome is a list of length [n] that
    holds each of them. *)
Definition permutation_outcome (n : nat) (outcome : list nat) : bool :=
  (length outcome =? n) && forallb (fun i => existsb (Nat.eqb i) outcome) (seq 0 n).

End np.

(** [neg_u, neg_v]: "find all negative edges". *)
Definition negative_edges (g : DGLGraph) : result (list nat * list nat) :=
  let u := map fst (edges g) in
  let v := map snd (edges g) in
  adj <~ np.coo_todense u v ;
  adj_neg <~ np.sub (np.rsub 1 adj) (np.eye (num_nodes g)) ;
  Ok (np.where_ne0 adj_neg).

Record neg_split : Type := mkNegSplit {
  test_neg_u : list nat;
  test_neg_v : list nat;
  train_neg_u : list nat;
  train_neg_v : list nat
}.

(** The rest of the cell, for the outcome [outcome] of the random
    choice.  [test_size] is [int(len(eids) * 0.1)], a tenth of the
    number of edges rounded down. *)
Definition sample_negative_edges (g : DGLGraph) (outcome : list nat) : result neg_split :=
  neg <~ negative_edges g ;
  neg_eids <~ np.choice (length (fst neg)) (num_edges g) outcome ;
  let test_size := num_edges g / 10 in
  Ok (mkNegSplit
        (np.take (fst neg) (firstn test_size neg_eids))
        (np.take (snd neg) (firstn test_size neg_eids))
        (np.take (fst neg) (skipn test_size neg_eids))
        (np.take (snd neg) (skipn test_size neg_eids))).

(** All sampled negative pairs of a split. *)
Definition sampled_pairs (s : neg_split) : list (nat * nat) :=
  zip (test_neg_u s) (test_neg_v s) ++ zip (train_neg_u s) (train_neg_v s).

(** *** The split of the edges and the graphs of node pairs *)

Record pos_split : Type := mkPosSplit {
  test_size : nat;
  train_size : nat;
  test_pos_u : list nat;
  test_pos_v : list nat;
  train_pos_u : list nat;
  train_pos_v : list nat
}.

(** "Split edge set for training and testing", for the outcome [eids]
    of the random permutation of the edge ids. *)
Definition split_edges (g : DGLGraph) (eids : list nat) : pos_split :=
  let u := map fst (edges g) in
  let v := map snd (edges g) in
  let test_size := length eids / 10 in
  let train_size := num_edges g - test_size in
  mkPosSplit test_size train_size
    (np.take u (firstn test_size eids)) (np.take v (firstn test_size eids))
    (np.take u (skipn test_size eids)) (np.take v (skipn test_size eids)).

(** [train_g = dgl.remove_edges(g, eids[:test_size])]. *)
Definition train_graph (g : DGLGraph) (eids : list nat) : result DGLGraph :=
  dgl.remove_edges g (firstn (length eids / 10) eids).

Record pair_graphs : Type := mkPairGraphs {
  train_pos_g : DGLGraph;
  train_neg_g : DGLGraph;
  test_pos_g : DGLGraph;
  test_neg_g : DGLGraph
}.

(** The cell that builds the positive and the negative graph of the
    training set and of the test set, on the nodes of [g]. *)
Definition build_pair_graphs (g : DGLGraph) (p : pos_split) (n : neg_split)
  : result pair_graphs :=
  train_pos <~ dgl.graph (train_pos_u p) (train_pos_v p) (num_nodes g) ;
  train_neg <~ dgl.graph (train_neg_u n) (train_neg_v n) (num_nodes g) ;
  test_pos <~ dgl.graph (test_pos_u p) (test_pos_v p) (num_nodes g) ;
  test_neg <~ dgl.graph (test_neg_u n) (test_neg_v n) (num_nodes g) ;
  Ok (mkPairGraphs train_pos train_neg test_pos test_neg).

(** The score that the predictor with the submodules [l1] and [l2]
    gives to an edge whose endpoints have the features [hu] and [hv]. *)
Definition mlp_score (l1 l2 : Linear) (hu hv : list Q) : Q :=
  hd 0%Q (affine l2 (map (fun x => if Qle_bool 0 x then x else 0%Q)
                         (affine l1 (hu ++ hv)))).

(** ** The training loop of the node classification notebooks *)

(** [best_val_acc] and [best_test_acc], the two variables that [train]
    keeps across the epochs. *)
Record best : Type := mkBest { best_val_acc : Q; best_test_acc : Q }.

Definition Qltb (a b : Q) : bool := negb (Qle_bool b a).

(** "Save the best validation accuracy and the corresponding test
    accuracy": the [if] of one epoch, for the validation and the test
    accuracy of that epoch. *)
Definition save_best (b : best) (acc : Q * Q) : best :=
  if Qltb (best_val_acc b) (fst acc) then mkBest (fst acc) (snd acc) else b.

(** The two variables after the epochs whose validation and test
    accuracies are [accs], both starting at zero. *)
Definition train_best (accs : list (Q * Q)) : best :=
  fold_left save_best accs (mkBest 0 0).

(** ** The layer in the words of the specification *)

(** Row [i] of a tensor. *)
Definition row (t : Tensor) (i : nat) : list Q := nth i (rows t) [].

(** The mean of a stack of vectors of width [d]; the zero vector for
    an empty stack. *)
Definition mean_vec (d : nat) (vs : list (list Q)) : list Q :=
  match vs with
  | [] => vzero d
  | _ => vscale_div (vsum d vs) (length vs)
  end.

(** For every node, the mean of the messages it receives. *)
Definition mean_of_incoming (g : DGLGraph) (msgs : Tensor) : Tensor :=
  mkTensor (cols msgs)
    (map (fun v => mean_vec (cols msgs) (in_messages g (rows msgs) v))
         (seq 0 (num_nodes g))).

(** The message of every edge: the feature of its source node, and
    that feature times the weight of the edge. *)
Definition source_features (g : DGLGraph) (h : Tensor) : Tensor :=
  mkTensor (cols h) (map (fun e => row h (fst e)) (edges g)).

Definition weighted_source_features (g : DGLGraph) (h w : Tensor) : Tensor :=
  mkTensor (torch.bwidth (cols h) (cols w))
    (zip_with (fun e we => torch.mul_row (row h (fst e)) we) (edges g) (rows w)).

(** The weight that an edge with the weight vector [we] gives to
    component [j] of its message: the one weight of a vector of length
    one, which applies to every component, and component [j] of a
    longer vector. *)
Definition weight_component (we : list Q) (j : nat) : Q :=
  match we with
  | [s] => s
  | _ => nth j we 0%Q
  end.

(** The combination step: the affine transform of the concatenation
    of the feature of every node with its aggregated neighbour vector. *)
Definition combine (l : Linear) (h h_N : Tensor) : Tensor :=
  mkTensor (out_features l)
    (zip_with (fun x y => affine l (x ++ y)) (rows h) (rows h_N)).

(** The input contract of the layer in the words of the specification:
    a node feature matrix of shape (N, Din) and an edge weight vector
    of shape (E, 1) or (E, Din), for the declared input dimension Din. *)
Definition dims_consistent (in_feat : nat) (g : DGLGraph) (h w : Tensor) : Prop :=
  torch.shape h = (num_nodes g, in_feat)
  /\ (torch.shape w = (num_edges g, 1) \/ torch.shape w = (num_edges g, in_feat)).

(** How many times the pair (i, j) is an edge of the graph. *)
Definition multiplicity (g : DGLGraph) (i j : nat) : nat :=
  length (filter (fun e => e = (i, j)) (edges g)).

(** A computation that leaves the nodes and the edges of the graph as
    they are, whatever it does to the feature frames. *)
Definition keeps_structure {A} (m : M A) : Prop :=
  forall g, num_nodes (snd (m g)) = num_nodes g /\ edges (snd (m g)) = edges g.

(** The score of every edge: the dot product of the feature vectors of
    its two endpoints. *)
Definition dot_scores (g : DGLGraph) (h : Tensor) : list Q :=
  map (fun e => dot (row h (fst e)) (row h (snd e))) (edges g).

(** The dot product as the specification writes it, 1*3 + 2*4: the
    product of the first components plus the dot product of the
    rest. *)
Fixpoint sum_products (a b : list Q) : Q :=
  match a, b with
  | x :: a', y :: b' => (x * y + sum_products a' b')%Q
  | _, _ => 0%Q
  end.


(** ** The examples of the specification *)

Definition g3 : DGLGraph := mkGraph 3 [(0, 1); (2, 1)] ∅ ∅.

Definition X3 : Tensor := mkTensor 2 [[1; 0]; [0; 0]; [0; 1]]%Q.

Definition g_uv : DGLGraph := mkGraph 2 [(0, 1)] ∅ ∅.

Definition H_uv : Tensor := mkTensor 2 [[1; 2]; [3; 4]]%Q.

(** A layer from two input features to three output features. *)
Definition layer23 : SAGEConv.t :=
  SAGEConv.init 2 3 [[1; 0; 0; 0]; [0; 1; 1; 0]; [0; 0; 0; 2]]%Q [0; 1; 0]%Q.

(** The example graph with a stored node feature, and a feature matrix
    that is too wide for [layer23]. *)
Definition g3_feat : DGLGraph := mkGraph 3 [(0, 1); (2, 1)] {[ "feat"%string := X3 ]} ∅.

Definition X3_wide : Tensor := mkTensor 3 [[1; 0; 0]; [0; 0; 0]; [0; 1; 0]]%Q.

(** A weighted layer that declares two input features, a feature
    matrix of width one and edge weights of width three. *)
Definition wlayer23 : WeightedSAGEConv.t :=
  WeightedSAGEConv.init 2 3 [[1; 0; 0; 0]; [0; 1; 1; 0]; [0; 0; 0; 2]]%Q [0; 1; 0]%Q.

Definition X3_narrow : Tensor := mkTensor 1 [[1]; [2]; [3]]%Q.

Definition W3_wide : Tensor := mkTensor 3 [[1; 2; 3]; [4; 5; 6]]%Q.

(** The example graph with a stored node feature 'h' and stored edge
    weights 'w'. *)
Definition g3_weighted : DGLGraph :=
  mkGraph 3 [(0, 1); (2, 1)] {[ "h"%string := X3 ]} {[ "w"%string := torch.ones 2 1 ]}.

(** Edge weights for the example graph: one weight per edge, and one
    weight per edge and feature. *)
Definition W3_scalar : Tensor := mkTensor 1 [[3]; [5]]%Q.


(** The example graph with a stored node feature 'h' and the stored
    edge weights 3 and 5 under 'w'. *)
Definition g3_scaled : DGLGraph :=
  mkGraph 3 [(0, 1); (2, 1)] {[ "h"%string := X3 ]} {[ "w"%string := W3_scalar ]}.

(** A graph with a self-loop, for the sampling cell. *)
Definition g_loop : DGLGraph := mkGraph 3 [(0, 1); (1, 2); (2, 0); (2, 2)] ∅ ∅.

(** * Properties *)

(** ** Scalars and vectors *)

Lemma Qplus_0_l_eq (x : Q) : (0 + x)%Q = x.
Proof. destruct x as [n d]. unfold Qplus. simpl. f_equal. lia. Qed.

Lemma Qmult_1_r_eq (x : Q) : (x * 1)%Q = x.
Proof. destruct x as [n d]. unfold Qmult. simpl. f_equal; lia. Qed.

Lemma Qdiv_1_r_eq (x : Q) : (x / inject_Z (Z.of_nat 1))%Q = x.
Proof. destruct x as [n d]. unfold Qdiv, Qmult. simpl. f_equal; lia. Qed.

Lemma vscale_div_1 (a : list Q) : vscale_div a 1 = a.
Proof.
  unfold vscale_div. induction a as [|x a IH]; simpl; [reflexivity|].
  f_equal; [apply Qdiv_1_r_eq | exact IH].
Qed.

Lemma length_vzero (d : nat) : length (vzero d) = d.
Proof. apply repeat_length. Qed.


Lemma length_vadd (a b : list Q) :
  length a = length b -> length (vadd a b) = length a.
Proof. intros H. unfold vadd. rewrite length_zip_with. lia. Qed.

Lemma length_vscale_div (a : list Q) (n : nat) : length (vscale_div a n) = length a.
Proof. unfold vscale_div. apply length_map. Qed.

Lemma length_fold_vadd (vs : list (list Q)) (a : list Q) :
  Forall (fun v => length v = length a) vs ->
  length (fold_left vadd vs a) = length a.
Proof.
  revert a. induction vs as [|v vs IH]; intros a Hvs; simpl; [reflexivity|].
  inversion Hvs as [|? ? Hv Hvs']; subst.
  assert (Hlen : length (vadd a v) = length a) by (apply length_vadd; lia).
  rewrite IH; [exact Hlen|].
  eapply Forall_impl; [exact Hvs'|]. simpl. intros w Hw. lia.
Qed.

Lemma length_vsum (d : nat) (vs : list (list Q)) :
  Forall (fun v => length v = d) vs -> length (vsum d vs) = d.
Proof.
  intros H. unfold vsum. rewrite length_fold_vadd; rewrite length_vzero; auto.
Qed.

Lemma length_mean_vec (d : nat) (vs : list (list Q)) :
  Forall (fun v => length v = d) vs -> length (mean_vec d vs) = d.
Proof.
  intros H. destruct vs as [|v vs]; simpl; [apply length_vzero|].
  rewrite length_vscale_div. apply (length_vsum d (v :: vs) H).
Qed.

(** A weight of one leaves a vector as it is, whether it is broadcast
    or given per component. *)
Lemma mul_row_one (a : list Q) : torch.mul_row a [1%Q] = a.
Proof.
  unfold torch.mul_row. destruct (length a =? length [1%Q]) eqn:E.
  - apply Nat.eqb_eq in E. destruct a as [|x [|y a]]; simpl in E; try discriminate.
    simpl. f_equal. apply Qmult_1_r_eq.
  - induction a as [|x a IH]; simpl; [reflexivity|].
    f_equal; [apply Qmult_1_r_eq|].
    clear E IH. induction a as [|y a IH]; simpl; [reflexivity|].
    f_equal; [apply Qmult_1_r_eq | exact IH].
Qed.


(** ** Shapes *)

Lemma is_tensor_Forall (t : Tensor) :
  is_tensor t = true <-> Forall (fun r => length r = cols t) (rows t).
Proof.
  unfold is_tensor. rewrite forallb_forall, Forall_forall.
  split; intros H r Hr.
  - apply Nat.eqb_eq, H, list_elem_of_In, Hr.
  - apply Nat.eqb_eq, H, list_elem_of_In, Hr.
Qed.

Lemma valid_graph_Forall (g : DGLGraph) :
  valid_graph g = true <->
  Forall (fun e => fst e < num_nodes g /\ snd e < num_nodes g) (edges g).
Proof.
  unfold valid_graph. rewrite forallb_forall, Forall_forall.
  split; intros H e He.
  - apply list_elem_of_In in He. specialize (H e He).
    apply andb_true_iff in H as [H1 H2].
    apply Nat.ltb_lt in H1, H2. auto.
  - apply list_elem_of_In in He. destruct (H e He) as [H1 H2].
    apply andb_true_iff. split; apply Nat.ltb_lt; assumption.
Qed.

Lemma row_lookup (t : Tensor) (i : nat) (r : list Q) :
  rows t !! i = Some r -> row t i = r.
Proof. intros H. unfold row. rewrite nth_lookup, H. reflexivity. Qed.

Lemma length_row (t : Tensor) (i : nat) :
  is_tensor t = true -> i < nrows t -> length (row t i) = cols t.
Proof.
  intros Ht Hi. apply is_tensor_Forall in Ht.
  destruct (lookup_lt_is_Some_2 (rows t) i Hi) as [r Hr].
  rewrite (row_lookup _ _ _ Hr).
  rewrite Forall_forall in Ht. apply Ht. eapply list_elem_of_lookup_2, Hr.
Qed.

(** ** Row selection and the message phase *)

Lemma index_rows_ok (rs : list (list Q)) (idx : list nat) :
  Forall (fun i => i < length rs) idx ->
  torch.index_rows rs idx = Ok (map (fun i => nth i rs []) idx).
Proof.
  induction idx as [|i idx IH]; intros H; simpl; [reflexivity|].
  inversion H as [|? ? Hi Hidx]; subst.
  destruct (lookup_lt_is_Some_2 rs i Hi) as [r Hr].
  rewrite Hr, (IH Hidx). simpl. rewrite nth_lookup, Hr. reflexivity.
Qed.

Lemma index_rows_raises (rs : list (list Q)) (idx : list nat) :
  Exists (fun i => length rs <= i) idx ->
  torch.index_rows rs idx = Raise IndexError.
Proof.
  induction idx as [|i idx IH]; intros H; simpl; [inversion H|].
  destruct (rs !! i) as [r|] eqn:Hr; [|reflexivity].
  inversion H as [? ? Hi|? ? Hidx]; subst.
  - apply lookup_lt_Some in Hr. lia.
  - rewrite (IH Hidx). reflexivity.
Qed.

Lemma index_select_sources (g : DGLGraph) (h : Tensor) :
  valid_graph g = true -> nrows h = num_nodes g ->
  index_select h (map fst (edges g)) = Ok (source_features g h).
Proof.
  intros Hg Hn. unfold index_select, source_features, row.
  rewrite index_rows_ok.
  - simpl. rewrite map_map. reflexivity.
  - apply valid_graph_Forall in Hg. rewrite Forall_map.
    eapply Forall_impl; [exact Hg|]. simpl. intros e [He _].
    unfold nrows in Hn. lia.
Qed.

Lemma index_select_destinations (g : DGLGraph) (h : Tensor) :
  valid_graph g = true -> nrows h = num_nodes g ->
  index_select h (map snd (edges g))
  = Ok (mkTensor (cols h) (map (fun e => row h (snd e)) (edges g))).
Proof.
  intros Hg Hn. unfold index_select, row.
  rewrite index_rows_ok.
  - simpl. rewrite map_map. reflexivity.
  - apply valid_graph_Forall in Hg. rewrite Forall_map.
    eapply Forall_impl; [exact Hg|]. simpl. intros e [_ He].
    unfold nrows in Hn. lia.
Qed.

Lemma nrows_source_features (g : DGLGraph) (h : Tensor) :
  nrows (source_features g h) = num_edges g.
Proof. unfold nrows, source_features, num_edges. simpl. apply length_map. Qed.

Lemma is_tensor_source_features (g : DGLGraph) (h : Tensor) :
  valid_graph g = true -> is_tensor h = true -> nrows h = num_nodes g ->
  is_tensor (source_features g h) = true.
Proof.
  intros Hg Ht Hn. apply is_tensor_Forall. simpl. rewrite Forall_map.
  apply valid_graph_Forall in Hg.
  eapply Forall_impl; [exact Hg|]. simpl. intros e [He _].
  apply length_row; [exact Ht | lia].
Qed.

(** ** The mean reducer *)

Lemma lookup_repeat_lt {A} (x : A) (n i : nat) : i < n -> repeat x n !! i = Some x.
Proof.
  revert i. induction n as [|n IH]; intros i Hi; [lia|].
  destruct i as [|i]; simpl; [reflexivity|]. apply IH. lia.
Qed.

Lemma scatter_add_length (acc : list (list Q)) (idx : list nat) (src : list (list Q)) :
  length (scatter_add acc idx src) = length acc.
Proof.
  unfold scatter_add. generalize (zip idx src) as ims. intros ims. revert acc.
  induction ims as [|im ims IH]; intros acc; simpl; [reflexivity|].
  rewrite IH. apply length_alter.
Qed.

Lemma scatter_add_lookup (acc : list (list Q)) (ims : list (nat * list Q))
    (v : nat) (a : list Q) :
  acc !! v = Some a ->
  fold_left (fun a im => alter (fun r => vadd r (snd im)) (fst im) a) ims acc !! v
  = Some (fold_left vadd (map snd (filter (fun im => fst im = v) ims)) a).
Proof.
  revert acc a. induction ims as [|[i m] ims IH]; intros acc a Ha; simpl; [exact Ha|].
  destruct (decide (i = v)) as [->|Hne].
  - rewrite filter_cons_True by reflexivity. simpl.
    apply IH. rewrite list_lookup_alter_eq, Ha. reflexivity.
  - rewrite filter_cons_False by (simpl; congruence).
    apply IH. rewrite list_lookup_alter_ne by exact Hne. exact Ha.
Qed.

Lemma filter_zip_destinations (es : list (nat * nat)) (msgs : list (list Q)) (v : nat) :
  map snd (filter (fun im => fst im = v) (zip (map snd es) msgs))
  = map snd (filter (fun em : nat * nat * list Q => snd (fst em) = v) (zip es msgs)).
Proof.
  revert msgs. induction es as [|e es IH]; intros [|m msgs]; simpl; try reflexivity.
  destruct (decide (snd e = v)) as [He|He].
  - rewrite !filter_cons_True by (simpl; exact He). simpl. f_equal. apply IH.
  - rewrite !filter_cons_False by (simpl; exact He). apply IH.
Qed.

Lemma length_in_messages (g : DGLGraph) (msgs : list (list Q)) (v : nat) :
  length msgs = num_edges g ->
  length (in_messages g msgs v) = in_degree g v.
Proof.
  unfold in_messages, in_degree, in_edges, num_edges. rewrite length_map.
  generalize (edges g) as es. intros es. revert msgs.
  induction es as [|e es IH]; intros [|m msgs] Hlen; simpl in *;
    try reflexivity; try discriminate.
  destruct (decide (snd e = v)) as [He|He].
  - rewrite !filter_cons_True by (simpl; exact He). simpl. f_equal.
    apply IH. lia.
  - rewrite !filter_cons_False by (simpl; exact He). apply IH. lia.
Qed.

Lemma in_degree_le (g : DGLGraph) (v : nat) : in_degree g v <= num_edges g.
Proof. unfold in_degree, in_edges, num_edges. apply length_filter. Qed.

(** The reducer of the library gives every node the mean of the
    messages it receives, and the zero vector when it receives none. *)
Lemma reduce_mean_spec (g : DGLGraph) (msgs : Tensor) :
  nrows msgs = num_edges g ->
  reduce_mean g msgs = mean_of_incoming g msgs.
Proof.
  intros Hlen. unfold reduce_mean, mean_of_incoming, in_degrees. f_equal.
  apply list_eq. intros v.
  rewrite lookup_zip_with, !list_lookup_fmap.
  destruct (decide (v < num_nodes g)) as [Hv|Hv].
  - rewrite lookup_seq_lt by exact Hv. simpl.
    unfold scatter_add.
    rewrite (scatter_add_lookup _ _ v (vzero (cols msgs))).
    2:{ unfold zeros. simpl. apply lookup_repeat_lt. exact Hv. }
    simpl. f_equal.
    rewrite filter_zip_destinations.
    fold (in_messages g (rows msgs) v).
    pose proof (length_in_messages g (rows msgs) v Hlen) as Hdeg.
    pose proof (in_degree_le g v) as Hle.
    fold (vsum (cols msgs) (in_messages g (rows msgs) v)).
    destruct (in_messages g (rows msgs) v) as [|m ms] eqn:Hin.
    + simpl in Hdeg. rewrite <- Hdeg. simpl.
      replace (clamp 0 1 (Nat.max (num_edges g) 1)) with 1 by (unfold clamp; lia).
      apply vscale_div_1.
    + unfold mean_vec. f_equal. rewrite Hdeg. unfold clamp.
      simpl in Hdeg. lia.
  - rewrite lookup_seq_ge by lia. simpl.
    rewrite (lookup_ge_None_2 (scatter_add _ _ _)); [reflexivity|].
    rewrite scatter_add_length. unfold zeros. simpl. rewrite repeat_length. lia.
Qed.

(** ** Running the layers *)

Lemma lookup_field_insert (fr : gmap string Tensor) (k : string) (t : Tensor) :
  lookup_field (<[k := t]> fr) k = Ok t.
Proof. unfold lookup_field. rewrite lookup_insert_eq. reflexivity. Qed.

Lemma update_all_copy_u_run (g : DGLGraph) (h : Tensor) :
  ndata g !! "h"%string = Some h ->
  update_all (fn.copy_u "h" "m") (fn.mean "m" "h_N") g
  = match index_select h (map fst (edges g)) with
    | Ok hu => (Ok tt, with_ndata g (<["h_N"%string := reduce_mean g hu]> (ndata g)))
    | Raise e => (Raise e, g)
    end.
Proof.
  intros Hh. unfold update_all, messages, lookup_field. rewrite Hh. simpl.
  destruct (index_select h (map fst (edges g))) as [hu|e]; reflexivity.
Qed.

Lemma update_all_u_mul_e_run (g : DGLGraph) (h w : Tensor) :
  ndata g !! "h"%string = Some h ->
  edata g !! "w"%string = Some w ->
  update_all (fn.u_mul_e "h" "w" "m") (fn.mean "m" "h_N") g
  = match (hu <~ index_select h (map fst (edges g)) ; torch.mul DGLError hu w) with
    | Ok m => (Ok tt, with_ndata g (<["h_N"%string := reduce_mean g m]> (ndata g)))
    | Raise e => (Raise e, g)
    end.
Proof.
  intros Hh Hw. unfold update_all, messages, lookup_field. rewrite Hh, Hw. simpl.
  destruct (index_select h (map fst (edges g))) as [hu|e]; simpl; [|reflexivity].
  destruct (torch.mul DGLError hu w) as [m|e]; reflexivity.
Qed.

(** What [SAGEConv.aggregate] computes, on any graph and any tensor. *)
Lemma SAGEConv_aggregate_run (h : Tensor) (g : DGLGraph) :
  SAGEConv.aggregate h g
  = (if nrows h =? num_nodes g
     then hu <~ index_select h (map fst (edges g)) ; Ok (reduce_mean g hu)
     else Raise DGLError, g).
Proof.
  destruct g as [n es nd ed].
  unfold SAGEConv.aggregate, local_scope, bind, set_ndata. simpl.
  destruct (nrows h =? n); [|reflexivity].
  rewrite (update_all_copy_u_run _ h) by apply lookup_insert_eq. simpl.
  destruct (index_select h (map fst es)) as [hu|e]; simpl; [|reflexivity].
  unfold get_ndata. simpl. rewrite lookup_insert_eq. reflexivity.
Qed.

Lemma WeightedSAGEConv_aggregate_run (h w : Tensor) (g : DGLGraph) :
  WeightedSAGEConv.aggregate h w g
  = (if nrows h =? num_nodes g
     then if nrows w =? num_edges g
          then hu <~ index_select h (map fst (edges g)) ;
               m <~ torch.mul DGLError hu w ;
               Ok (reduce_mean g m)
          else Raise DGLError
     else Raise DGLError, g).
Proof.
  destruct g as [n es nd ed].
  unfold WeightedSAGEConv.aggregate, local_scope, bind, set_ndata, set_edata. simpl.
  destruct (nrows h =? n); [|reflexivity].
  unfold num_edges. simpl.
  destruct (nrows w =? length es); [|reflexivity].
  rewrite (update_all_u_mul_e_run _ h w) by apply lookup_insert_eq. simpl.
  destruct (index_select h (map fst es)) as [hu|e]; simpl; [|reflexivity].
  destruct (torch.mul DGLError hu w) as [m|e]; simpl; [|reflexivity].
  unfold get_ndata. simpl. rewrite lookup_insert_eq. reflexivity.
Qed.

(** [forward] is [aggregate] followed by the concatenation and the
    linear submodule, and leaves the graph as it found it. *)
Lemma SAGEConv_forward_run (self : SAGEConv.t) (h : Tensor) (g : DGLGraph) :
  SAGEConv.forward self h g
  = (h_N <~ fst (SAGEConv.aggregate h g) ;
     h_total <~ torch.cat h h_N ;
     Linear_forward (SAGEConv.linear self) h_total, g).
Proof.
  rewrite SAGEConv_aggregate_run. simpl.
  destruct g as [n es nd ed].
  unfold SAGEConv.forward, SAGEConv.body, local_scope, bind, set_ndata, lift. simpl.
  destruct (nrows h =? n); [|reflexivity].
  rewrite (update_all_copy_u_run _ h) by apply lookup_insert_eq. simpl.
  destruct (index_select h (map fst es)) as [hu|e]; simpl; [|reflexivity].
  unfold get_ndata. simpl. rewrite lookup_insert_eq.
  destruct (torch.cat h _) as [h_total|e]; simpl; [|reflexivity].
  destruct (Linear_forward _ h_total); reflexivity.
Qed.

Lemma WeightedSAGEConv_forward_run (self : WeightedSAGEConv.t) (h w : Tensor)
    (g : DGLGraph) :
  WeightedSAGEConv.forward self h w g
  = (h_N <~ fst (WeightedSAGEConv.aggregate h w g) ;
     h_total <~ torch.cat h h_N ;
     Linear_forward (WeightedSAGEConv.linear self) h_total, g).
Proof.
  rewrite WeightedSAGEConv_aggregate_run. simpl.
  destruct g as [n es nd ed].
  unfold WeightedSAGEConv.forward, WeightedSAGEConv.body, local_scope, bind, set_ndata, set_edata, lift. simpl.
  destruct (nrows h =? n); [|reflexivity].
  unfold num_edges. simpl.
  destruct (nrows w =? length es); [|reflexivity].
  rewrite (update_all_u_mul_e_run _ h w) by apply lookup_insert_eq. simpl.
  destruct (index_select h (map fst es)) as [hu|e]; simpl; [|reflexivity].
  destruct (torch.mul DGLError hu w) as [m|e]; simpl; [|reflexivity].
  unfold get_ndata. simpl. rewrite lookup_insert_eq.
  destruct (torch.cat h _) as [h_total|e]; simpl; [|reflexivity].
  destruct (Linear_forward _ h_total); reflexivity.
Qed.

(** ** What the layers aggregate *)

Lemma in_messages_source_features (g : DGLGraph) (h : Tensor) (v : nat) :
  in_messages g (rows (source_features g h)) v
  = map (fun e => row h (fst e)) (in_edges g v).
Proof.
  unfold in_messages, in_edges, source_features. simpl.
  induction (edges g) as [|e es IH]; simpl; [reflexivity|].
  destruct (decide (snd e = v)) as [He|He].
  - rewrite !filter_cons_True by (simpl; exact He). simpl. f_equal. exact IH.
  - rewrite !filter_cons_False by (simpl; exact He). exact IH.
Qed.

Lemma mean_of_incoming_lookup (g : DGLGraph) (msgs : Tensor) (v : nat) :
  v < num_nodes g ->
  rows (mean_of_incoming g msgs) !! v
  = Some (mean_vec (cols msgs) (in_messages g (rows msgs) v)).
Proof.
  intros Hv. unfold mean_of_incoming. simpl.
  rewrite list_lookup_fmap, lookup_seq_lt by exact Hv. reflexivity.
Qed.

Lemma nrows_mean_of_incoming (g : DGLGraph) (msgs : Tensor) :
  nrows (mean_of_incoming g msgs) = num_nodes g.
Proof. unfold nrows, mean_of_incoming. simpl. rewrite length_map. apply length_seq. Qed.

Lemma SAGEConv_aggregate_spec (g : DGLGraph) (h : Tensor) :
  valid_graph g = true -> nrows h = num_nodes g ->
  fst (SAGEConv.aggregate h g) = Ok (mean_of_incoming g (source_features g h)).
Proof.
  intros Hg Hn. rewrite SAGEConv_aggregate_run. simpl.
  rewrite Hn, Nat.eqb_refl, (index_select_sources g h Hg Hn). simpl.
  rewrite reduce_mean_spec by apply nrows_source_features. reflexivity.
Qed.

Lemma mul_source_features (g : DGLGraph) (h w : Tensor) :
  nrows w = num_edges g ->
  torch.broadcastable (cols h) (cols w) = true ->
  torch.mul DGLError (source_features g h) w = Ok (weighted_source_features g h w).
Proof.
  intros Hw Hb. unfold torch.mul.
  rewrite nrows_source_features, Hw, Nat.eqb_refl. simpl. rewrite Hb.
  unfold weighted_source_features. simpl. rewrite zip_with_fmap_l. reflexivity.
Qed.

Lemma nrows_weighted_source_features (g : DGLGraph) (h w : Tensor) :
  nrows w = num_edges g ->
  nrows (weighted_source_features g h w) = num_edges g.
Proof.
  intros Hw. unfold nrows, weighted_source_features, num_edges in *. simpl.
  rewrite length_zip_with. lia.
Qed.

Lemma WeightedSAGEConv_aggregate_spec (g : DGLGraph) (h w : Tensor) :
  valid_graph g = true -> nrows h = num_nodes g -> nrows w = num_edges g ->
  torch.broadcastable (cols h) (cols w) = true ->
  fst (WeightedSAGEConv.aggregate h w g)
  = Ok (mean_of_incoming g (weighted_source_features g h w)).
Proof.
  intros Hg Hn Hw Hb. rewrite WeightedSAGEConv_aggregate_run. simpl.
  rewrite Hn, Hw, !Nat.eqb_refl, (index_select_sources g h Hg Hn). simpl.
  rewrite (mul_source_features g h w Hw Hb). simpl.
  rewrite reduce_mean_spec by (apply nrows_weighted_source_features; exact Hw).
  reflexivity.
Qed.

(** The product of a vector with the weight vector of an edge,
    component by component. *)
Lemma mul_row_lookup (a b : list Q) (j : nat) (x : Q) :
  length b = 1 \/ length b = length a ->
  a !! j = Some x ->
  torch.mul_row a b !! j = Some (x * weight_component b j)%Q.
Proof.
  intros Hb Hj. unfold torch.mul_row.
  destruct (length a =? length b) eqn:E.
  - apply Nat.eqb_eq in E.
    destruct (lookup_lt_is_Some_2 b j) as [y Hy].
    { rewrite <- E. eapply lookup_lt_Some, Hj. }
    rewrite lookup_zip_with, Hj. simpl. rewrite Hy. simpl.
    do 2 f_equal. unfold weight_component.
    destruct b as [|s [|s' b]].
    + discriminate.
    + destruct j; simpl in Hy; [congruence|discriminate].
    + rewrite nth_lookup, Hy. reflexivity.
  - apply Nat.eqb_neq in E. destruct Hb as [Hb|Hb]; [|lia].
    destruct b as [|s [|s' b]]; simpl in Hb; try discriminate.
    rewrite list_lookup_fmap, Hj. reflexivity.
Qed.

Lemma length_mul_row (a b : list Q) :
  length b = 1 \/ length b = length a ->
  length (torch.mul_row a b) = length a.
Proof.
  intros Hb. unfold torch.mul_row.
  destruct (length a =? length b) eqn:E.
  - apply Nat.eqb_eq in E. rewrite length_zip_with. lia.
  - apply Nat.eqb_neq in E. destruct Hb as [Hb|Hb]; [|lia].
    destruct b as [|s [|s' b]]; simpl in Hb; try discriminate.
    apply length_map.
Qed.

Lemma bwidth_weights (d k : nat) : k = 1 \/ k = d -> torch.bwidth d k = d.
Proof.
  intros H. unfold torch.bwidth. destruct (d =? 1) eqn:E; [|reflexivity].
  apply Nat.eqb_eq in E. lia.
Qed.

Lemma broadcastable_weights (d k : nat) :
  k = 1 \/ k = d -> torch.broadcastable d k = true.
Proof.
  intros H. unfold torch.broadcastable.
  destruct H as [->| ->]; rewrite ?Nat.eqb_refl, ?orb_true_r; reflexivity.
Qed.

(** Row [k] of the weighted messages: the feature of the source of
    edge [k], each component times the weight that the edge gives
    it. *)
Lemma weighted_source_features_row (g : DGLGraph) (h w : Tensor)
      (k : nat) (e : nat * nat) (we : list Q) :
  valid_graph g = true -> is_tensor h = true -> is_tensor w = true ->
  nrows h = num_nodes g ->
  cols w = 1 \/ cols w = cols h ->
  edges g !! k = Some e -> rows w !! k = Some we ->
  length (row (weighted_source_features g h w) k) = cols h
  /\ forall j x, row h (fst e) !! j = Some x ->
       row (weighted_source_features g h w) k !! j
       = Some (x * weight_component we j)%Q.
Proof.
  intros Hg Hh Hw Hn Hb He Hwe.
  assert (Hr : row (weighted_source_features g h w) k
               = torch.mul_row (row h (fst e)) we).
  { apply row_lookup. unfold weighted_source_features. simpl.
    rewrite lookup_zip_with, He. simpl. rewrite Hwe. reflexivity. }
  assert (Hlh : length (row h (fst e)) = cols h).
  { apply length_row; [exact Hh|]. rewrite Hn.
    apply valid_graph_Forall in Hg. rewrite Forall_forall in Hg.
    apply (Hg e). eapply list_elem_of_lookup_2, He. }
  assert (Hlw : length we = 1 \/ length we = length (row h (fst e))).
  { apply is_tensor_Forall in Hw. rewrite Forall_forall in Hw.
    rewrite (Hw we) by (eapply list_elem_of_lookup_2, Hwe). lia. }
  rewrite Hr. split.
  - rewrite length_mul_row by exact Hlw. exact Hlh.
  - intros j x Hx. apply mul_row_lookup; assumption.
Qed.



(** ** Shapes of the aggregate and of the output *)

Lemma in_messages_Forall (P : list Q -> Prop) (g : DGLGraph) (msgs : list (list Q))
    (v : nat) :
  Forall P msgs -> Forall P (in_messages g msgs v).
Proof.
  unfold in_messages. generalize (edges g) as es. intros es. revert msgs.
  induction es as [|e es IH]; intros [|m msgs] H; simpl; try constructor.
  inversion H as [|? ? Hm Hmsgs]; subst.
  destruct (decide (snd e = v)) as [He|He].
  - rewrite filter_cons_True by (simpl; exact He). simpl.
    constructor; [exact Hm | apply IH, Hmsgs].
  - rewrite filter_cons_False by (simpl; exact He). apply IH, Hmsgs.
Qed.

Lemma is_tensor_mean_of_incoming (g : DGLGraph) (msgs : Tensor) :
  is_tensor msgs = true -> is_tensor (mean_of_incoming g msgs) = true.
Proof.
  intros Ht. apply is_tensor_Forall. simpl. rewrite Forall_map.
  apply Forall_forall. intros v _. simpl.
  apply length_mean_vec, in_messages_Forall, is_tensor_Forall, Ht.
Qed.

Lemma length_affine (l : Linear) (x : list Q) :
  Linear_ok l = true -> length (affine l x) = out_features l.
Proof.
  unfold Linear_ok, affine. intros H.
  apply andb_true_iff in H as [H Hb]. apply andb_true_iff in H as [Hw _].
  apply Nat.eqb_eq in Hw, Hb. rewrite length_zip_with. lia.
Qed.

Lemma map_zip_with {A B C D} (f : C -> D) (k : A -> B -> C) (a : list A) (b : list B) :
  map f (zip_with k a b) = zip_with (fun x y => f (k x y)) a b.
Proof.
  revert b. induction a as [|x a IH]; intros [|y b]; simpl; try reflexivity.
  f_equal. apply IH.
Qed.

(** The concatenation followed by the linear submodule is the
    combination step, when the widths add up to the input width of the
    submodule. *)
Lemma cat_linear_combine (l : Linear) (h h_N : Tensor) :
  nrows h_N = nrows h ->
  cols h + cols h_N = in_features l ->
  (h_total <~ torch.cat h h_N ; Linear_forward l h_total) = Ok (combine l h h_N).
Proof.
  intros Hn Hc. unfold torch.cat. rewrite Hn, Nat.eqb_refl. simpl.
  unfold Linear_forward. simpl. rewrite Hc, Nat.eqb_refl.
  unfold combine. rewrite map_zip_with. reflexivity.
Qed.

Lemma combine_lookup (l : Linear) (h h_N : Tensor) (v : nat) :
  v < nrows h -> v < nrows h_N ->
  rows (combine l h h_N) !! v = Some (affine l (row h v ++ row h_N v)).
Proof.
  intros Hh HN. unfold combine. simpl. rewrite lookup_zip_with.
  destruct (lookup_lt_is_Some_2 (rows h) v Hh) as [x Hx].
  destruct (lookup_lt_is_Some_2 (rows h_N) v HN) as [y Hy].
  rewrite Hx, Hy. simpl.
  rewrite (row_lookup _ _ _ Hx), (row_lookup _ _ _ Hy). reflexivity.
Qed.

Lemma is_tensor_combine (l : Linear) (h h_N : Tensor) :
  Linear_ok l = true -> is_tensor (combine l h h_N) = true.
Proof.
  intros Hl. apply is_tensor_Forall. simpl. apply Forall_forall.
  intros r Hr. apply elem_of_lookup_zip_with in Hr as (i & x & y & -> & _ & _).
  apply length_affine, Hl.
Qed.

Lemma nrows_combine (l : Linear) (h h_N : Tensor) :
  nrows h_N = nrows h -> nrows (combine l h h_N) = nrows h.
Proof.
  intros Hn. unfold nrows, combine in *. simpl. rewrite length_zip_with. lia.
Qed.

Lemma SAGEConv_forward_spec (self : SAGEConv.t) (g : DGLGraph) (h : Tensor) :
  valid_graph g = true -> nrows h = num_nodes g ->
  cols h + cols h = in_features (SAGEConv.linear self) ->
  fst (SAGEConv.forward self h g)
  = Ok (combine (SAGEConv.linear self) h (mean_of_incoming g (source_features g h))).
Proof.
  intros Hg Hn Hc. rewrite SAGEConv_forward_run. simpl.
  rewrite (SAGEConv_aggregate_spec g h Hg Hn). simpl.
  apply cat_linear_combine; [|exact Hc].
  rewrite nrows_mean_of_incoming. symmetry. exact Hn.
Qed.

(** C4.  On a graph with N nodes, whatever its edges, and an (N, Din)
    feature matrix of positive width Din, the output of the layer is
    the affine transform of the concatenation, of length 2 * Din, of the
    feature of each node with its aggregated neighbour vector, and has
    shape (N, Dout). *)
Theorem forward_is_affine_of_concat (in_feat out_feat : nat) (W : list (list Q))
    (b : list Q) (g : DGLGraph) (h : Tensor) :
  let self := SAGEConv.init in_feat out_feat W b in
  0 < in_feat ->
  Linear_ok (SAGEConv.linear self) = true ->
  valid_graph g = true ->
  is_tensor h = true ->
  torch.shape h = (num_nodes g, in_feat) ->
  exists h_N out : Tensor,
    fst (SAGEConv.aggregate h g) = Ok h_N
    /\ fst (SAGEConv.forward self h g) = Ok out
    /\ torch.shape out = (num_nodes g, out_feat)
    /\ is_tensor out = true
    /\ forall v, v < num_nodes g ->
         length (row h v ++ row h_N v) = 2 * in_feat
         /\ rows out !! v = Some (affine (SAGEConv.linear self) (row h v ++ row h_N v)).
Proof.
  intros self Hd Hl Hg Ht Hs. unfold torch.shape in Hs.
  assert (Hn : nrows h = num_nodes g) by congruence.
  assert (Hc : cols h = in_feat) by congruence.
  set (h_N := mean_of_incoming g (source_features g h)).
  exists h_N, (combine (SAGEConv.linear self) h h_N).
  assert (HN : nrows h_N = nrows h)
    by (unfold h_N; rewrite nrows_mean_of_incoming; congruence).
  split; [apply SAGEConv_aggregate_spec; assumption|].
  split; [apply SAGEConv_forward_spec; try assumption; simpl; lia|].
  split; [unfold torch.shape; rewrite nrows_combine by exact HN; simpl; congruence|].
  split; [apply is_tensor_combine, Hl|].
  intros v Hv. split.
  - rewrite length_app, (length_row h v Ht) by lia.
    rewrite (length_row h_N v); [simpl; lia| |lia].
    apply is_tensor_mean_of_incoming, is_tensor_source_features; assumption.
  - apply combine_lookup; lia.
Qed.

Lemma forward_is_affine_of_concat_witness :
  exists h_N out : Tensor,
    fst (SAGEConv.aggregate X3 g3) = Ok h_N
    /\ fst (SAGEConv.forward layer23 X3 g3) = Ok out
    /\ torch.shape out = (3, 3)
    /\ is_tensor out = true
    /\ forall v, v < 3 ->
         length (row X3 v ++ row h_N v) = 2 * 2
         /\ rows out !! v = Some (affine (SAGEConv.linear layer23) (row X3 v ++ row h_N v)).
Proof.
  apply (forward_is_affine_of_concat 2 3
           [[1; 0; 0; 0]; [0; 1; 1; 0]; [0; 0; 0; 2]]%Q [0; 1; 0]%Q g3 X3);
    first [reflexivity | lia].
Defined.

(** ** Nodes without incoming edges *)

Lemma in_messages_no_in_edge (g : DGLGraph) (msgs : list (list Q)) (v : nat) :
  in_degree g v = 0 -> in_messages g msgs v = [].
Proof.
  unfold in_degree, in_edges, in_messages. generalize (edges g) as es. intros es.
  revert msgs. induction es as [|e es IH]; intros [|m msgs] H; simpl; try reflexivity.
  destruct (decide (snd e = v)) as [He|He].
  - rewrite filter_cons_True in H by exact He. discriminate.
  - rewrite filter_cons_False in H by exact He.
    rewrite filter_cons_False by (simpl; exact He). apply IH, H.
Qed.

Lemma mean_of_incoming_no_edges (g : DGLGraph) (msgs : Tensor) :
  edges g = [] -> mean_of_incoming g msgs = zeros (num_nodes g) (cols msgs).
Proof.
  intros He. unfold mean_of_incoming, zeros, in_messages. rewrite He. simpl.
  f_equal. generalize 0 as s.
  induction (num_nodes g) as [|n IH]; intros s; simpl; [reflexivity|].
  f_equal. apply IH.
Qed.

(** C3.  For features of positive width, a node without incoming
    edges, and so every node of a graph without edges, gets the zero
    vector as its aggregated neighbour vector under mean aggregation,
    and its output is the learnable transform of its own feature
    followed by the zero vector. *)
Theorem zero_in_degree_aggregates_to_zero (in_feat out_feat : nat)
    (W : list (list Q)) (b : list Q) (g : DGLGraph) (h : Tensor) :
  let self := SAGEConv.init in_feat out_feat W b in
  0 < in_feat ->
  Linear_ok (SAGEConv.linear self) = true ->
  valid_graph g = true ->
  is_tensor h = true ->
  torch.shape h = (num_nodes g, in_feat) ->
  exists h_N out : Tensor,
    fst (SAGEConv.aggregate h g) = Ok h_N
    /\ fst (SAGEConv.forward self h g) = Ok out
    /\ (forall v, v < num_nodes g -> in_degree g v = 0 ->
          rows h_N !! v = Some (vzero in_feat)
          /\ rows out !! v
             = Some (affine (SAGEConv.linear self) (row h v ++ vzero in_feat)))
    /\ (edges g = [] -> h_N = zeros (num_nodes g) in_feat).
Proof.
  intros self Hd Hl Hg Ht Hs. unfold torch.shape in Hs.
  assert (Hn : nrows h = num_nodes g) by congruence.
  assert (Hc : cols h = in_feat) by congruence.
  set (h_N := mean_of_incoming g (source_features g h)).
  exists h_N, (combine (SAGEConv.linear self) h h_N).
  split; [apply SAGEConv_aggregate_spec; assumption|].
  split; [apply SAGEConv_forward_spec; try assumption; simpl; lia|].
  split.
  - intros v Hv Hdeg.
    assert (Hrow : rows h_N !! v = Some (vzero in_feat)).
    { unfold h_N. rewrite mean_of_incoming_lookup by exact Hv.
      rewrite in_messages_no_in_edge by exact Hdeg. simpl. congruence. }
    split; [exact Hrow|].
    rewrite combine_lookup.
    + rewrite (row_lookup _ _ _ Hrow). reflexivity.
    + lia.
    + unfold h_N. rewrite nrows_mean_of_incoming. exact Hv.
  - intros He. unfold h_N. rewrite mean_of_incoming_no_edges by exact He.
    simpl. congruence.
Qed.

Lemma zero_in_degree_aggregates_to_zero_witness :
  exists h_N out : Tensor,
    fst (SAGEConv.aggregate X3 g3) = Ok h_N
    /\ fst (SAGEConv.forward layer23 X3 g3) = Ok out
    /\ (forall v, v < 3 -> in_degree g3 v = 0 ->
          rows h_N !! v = Some (vzero 2)
          /\ rows out !! v
             = Some (affine (SAGEConv.linear layer23) (row X3 v ++ vzero 2)))
    /\ (edges g3 = [] -> h_N = zeros 3 2).
Proof.
  apply (zero_in_degree_aggregates_to_zero 2 3
           [[1; 0; 0; 0]; [0; 1; 1; 0]; [0; 0; 0; 2]]%Q [0; 1; 0]%Q g3 X3);
    first [reflexivity | lia].
Defined.

(** ** Edge weights equal to one *)

Lemma bwidth_1_r (d : nat) : torch.bwidth d 1 = d.
Proof.
  unfold torch.bwidth. destruct (d =? 1) eqn:E; [|reflexivity].
  apply Nat.eqb_eq in E. congruence.
Qed.





Lemma index_rows_length (rs : list (list Q)) (idx : list nat) (out : list (list Q)) :
  torch.index_rows rs idx = Ok out -> length out = length idx.
Proof.
  revert out. induction idx as [|i idx IH]; intros out H; simpl in H.
  - inversion H. reflexivity.
  - destruct (rs !! i) as [r|]; [|discriminate].
    destruct (torch.index_rows rs idx) as [rest|e]; simpl in H; [|discriminate].
    inversion H. simpl. f_equal. apply IH. reflexivity.
Qed.

Lemma index_select_nrows (t : Tensor) (idx : list nat) (out : Tensor) :
  index_select t idx = Ok out -> nrows out = length idx.
Proof.
  unfold index_select. intros H.
  destruct (torch.index_rows (rows t) idx) as [rs|e] eqn:E; simpl in H; [|discriminate].
  inversion H. unfold nrows. simpl. eapply index_rows_length, E.
Qed.

Lemma zip_with_mul_row_one (rs : list (list Q)) :
  zip_with torch.mul_row rs (repeat [1%Q] (length rs)) = rs.
Proof.
  induction rs as [|r rs IH]; simpl; [reflexivity|].
  f_equal; [apply mul_row_one | exact IH].
Qed.

Lemma mul_ones (e : exn) (t : Tensor) (n : nat) :
  nrows t = n -> torch.mul e t (torch.ones n 1) = Ok t.
Proof.
  intros Hn. unfold torch.mul, torch.ones, nrows in *. simpl.
  rewrite repeat_length, Hn, Nat.eqb_refl. simpl.
  unfold torch.broadcastable. simpl. rewrite orb_true_r. simpl.
  rewrite bwidth_1_r, <- Hn, zip_with_mul_row_one.
  destruct t. reflexivity.
Qed.

Lemma aggregate_all_ones (h : Tensor) (g : DGLGraph) :
  fst (WeightedSAGEConv.aggregate h (torch.ones (num_edges g) 1) g)
  = fst (SAGEConv.aggregate h g).
Proof.
  rewrite WeightedSAGEConv_aggregate_run, SAGEConv_aggregate_run. simpl.
  destruct (nrows h =? num_nodes g); [|reflexivity].
  replace (nrows (torch.ones (num_edges g) 1)) with (num_edges g)
    by (unfold nrows, torch.ones; simpl; rewrite repeat_length; reflexivity).
  rewrite Nat.eqb_refl.
  destruct (index_select h (map fst (edges g))) as [hu|e] eqn:E; simpl; [|reflexivity].
  rewrite mul_ones; [reflexivity|].
  rewrite (index_select_nrows _ _ _ E), length_map. reflexivity.
Qed.

Lemma forward_all_ones (lin : Linear) (h : Tensor) (g : DGLGraph) :
  WeightedSAGEConv.forward (WeightedSAGEConv.mk lin) h (torch.ones (num_edges g) 1) g
  = SAGEConv.forward (SAGEConv.mk lin) h g.
Proof.
  rewrite WeightedSAGEConv_forward_run, SAGEConv_forward_run. simpl.
  rewrite aggregate_all_ones. reflexivity.
Qed.

(** C10.  With every edge weight equal to one, the weighted layer
    computes what the unweighted layer computes from the same affine
    parameters, on every graph and every feature matrix; so does the
    model that stacks two weighted layers with all-ones weights. *)
Theorem weighted_all_ones_is_unweighted :
  (forall (lin : Linear) (h : Tensor) (g : DGLGraph),
      fst (WeightedSAGEConv.forward (WeightedSAGEConv.mk lin) h
             (torch.ones (num_edges g) 1) g)
      = fst (SAGEConv.forward (SAGEConv.mk lin) h g))
  /\ (forall (l1 l2 : Linear) (x : Tensor) (g : DGLGraph),
        fst (WeightedModel.forward
               (WeightedModel.mk (WeightedSAGEConv.mk l1) (WeightedSAGEConv.mk l2)) x g)
        = fst (Model.forward (Model.mk (SAGEConv.mk l1) (SAGEConv.mk l2)) x g)).
Proof.
  split.
  - intros lin h g. rewrite forward_all_ones. reflexivity.
  - intros l1 l2 x g.
    unfold WeightedModel.forward, Model.forward, bind, get, ret.
    cbn [WeightedModel.conv1 WeightedModel.conv2 Model.conv1 Model.conv2].
    rewrite forward_all_ones.
    destruct (SAGEConv.forward (SAGEConv.mk l1) x g) as [[h1|e] g1]; [|reflexivity].
    rewrite forward_all_ones. reflexivity.
Qed.

(** ** The local scope *)

Create HintDb frames.

Lemma keeps_ret {A} (a : A) : keeps_structure (ret a).
Proof. intros g. split; reflexivity. Qed.

Lemma keeps_lift {A} (r : result A) : keeps_structure (lift r).
Proof. intros g. split; reflexivity. Qed.

Lemma keeps_get {A} (f : DGLGraph -> A) : keeps_structure (get f).
Proof. intros g. split; reflexivity. Qed.

Lemma keeps_bind {A B} (m : M A) (k : A -> M B) :
  keeps_structure m -> (forall a, keeps_structure (k a)) -> keeps_structure (bind m k).
Proof.
  intros Hm Hk g. unfold bind. specialize (Hm g).
  destruct (m g) as [[a|e] g1]; simpl in Hm.
  - destruct (Hk a g1) as [H1 H2]. destruct Hm as [H3 H4]. split; congruence.
  - exact Hm.
Qed.

Lemma keeps_set_ndata (k : string) (t : Tensor) : keeps_structure (set_ndata k t).
Proof. intros g. unfold set_ndata. destruct (nrows t =? num_nodes g); split; reflexivity. Qed.

Lemma keeps_set_edata (k : string) (t : Tensor) : keeps_structure (set_edata k t).
Proof. intros g. unfold set_edata. destruct (nrows t =? num_edges g); split; reflexivity. Qed.

Lemma keeps_get_ndata (k : string) : keeps_structure (get_ndata k).
Proof. intros g. unfold get_ndata. destruct (ndata g !! k); split; reflexivity. Qed.

Lemma keeps_get_edata (k : string) : keeps_structure (get_edata k).
Proof. intros g. unfold get_edata. destruct (edata g !! k); split; reflexivity. Qed.

Lemma keeps_update_all (mf : fn.message_func) (rf : fn.reduce_func) :
  keeps_structure (update_all mf rf).
Proof.
  intros g. unfold update_all. destruct rf as [msg out].
  destruct (messages g mf) as [[name msgs]|e]; [|split; reflexivity].
  destruct (String.eqb name msg); split; reflexivity.
Qed.

Lemma keeps_apply_edges (mf : fn.message_func) : keeps_structure (apply_edges mf).
Proof.
  intros g. unfold apply_edges.
  destruct (messages g mf) as [[name msgs]|e]; split; reflexivity.
Qed.

Lemma keeps_local_scope {A} (body : M A) :
  keeps_structure body -> keeps_structure (local_scope body).
Proof.
  intros Hb g. unfold local_scope. specialize (Hb g).
  destruct (body g) as [r g1]. exact Hb.
Qed.

#[local] Hint Resolve keeps_ret keeps_lift keeps_get keeps_bind keeps_set_ndata
  keeps_set_edata keeps_get_ndata keeps_get_edata keeps_update_all
  keeps_apply_edges keeps_local_scope : frames.

(** Whatever the body of a local scope writes to the feature frames,
    and whether it returns or raises, the graph is afterwards as it was
    on entry. *)
Lemma local_scope_restores {A} (body : M A) (g : DGLGraph) :
  keeps_structure body -> snd (local_scope body g) = g.
Proof.
  intros Hb. unfold local_scope. destruct (Hb g) as [Hn He].
  destruct (body g) as [r g1]. simpl in *. rewrite Hn, He.
  destruct g. reflexivity.
Qed.

Lemma SAGEConv_body_keeps (self : SAGEConv.t) (h : Tensor) :
  keeps_structure (SAGEConv.body self h).
Proof. unfold SAGEConv.body. auto 10 with frames. Qed.

Lemma WeightedSAGEConv_body_keeps (self : WeightedSAGEConv.t) (h w : Tensor) :
  keeps_structure (WeightedSAGEConv.body self h w).
Proof. unfold WeightedSAGEConv.body. auto 10 with frames. Qed.

Lemma DotPredictor_body_keeps (h : Tensor) : keeps_structure (DotPredictor.body h).
Proof. unfold DotPredictor.body. auto 10 with frames. Qed.

Lemma SAGEConv_forward_frame (self : SAGEConv.t) (h : Tensor) (g : DGLGraph) :
  snd (SAGEConv.forward self h g) = g.
Proof. apply local_scope_restores, SAGEConv_body_keeps. Qed.

Lemma WeightedSAGEConv_forward_frame (self : WeightedSAGEConv.t) (h w : Tensor)
    (g : DGLGraph) :
  snd (WeightedSAGEConv.forward self h w g) = g.
Proof. apply local_scope_restores, WeightedSAGEConv_body_keeps. Qed.

(** C2.  A call of the forward pass leaves the graph, its stored node
    and edge features included, as it was before the call, also when
    the call fails partway: what the call assigns to [g.ndata] and
    [g.edata] is discarded on every exit path.  (The feature matrix is
    a value, which no statement of the layer changes.)  The call on a
    feature matrix that is too wide for the layer raises after the
    body has written 'h' and 'h_N', and the graph is as before. *)
Theorem forward_leaves_graph_unchanged :
  (forall (self : SAGEConv.t) (h : Tensor) (g : DGLGraph),
      snd (SAGEConv.forward self h g) = g)
  /\ (forall (self : WeightedSAGEConv.t) (h w : Tensor) (g : DGLGraph),
        snd (WeightedSAGEConv.forward self h w g) = g)
  /\ (fst (SAGEConv.forward layer23 X3_wide g3_feat) = Raise RuntimeError
      /\ snd (SAGEConv.forward layer23 X3_wide g3_feat) = g3_feat
      /\ ndata (snd (SAGEConv.body layer23 X3_wide g3_feat)) !! "h"%string = Some X3_wide
      /\ ndata g3_feat !! "h"%string = None).
Proof.
  split; [|split].
  - apply SAGEConv_forward_frame.
  - apply WeightedSAGEConv_forward_frame.
  - split; [vm_compute; reflexivity|].
    split; [apply SAGEConv_forward_frame|].
    split; vm_compute; reflexivity.
Qed.

(** ** Independence of the stored features *)

Lemma reduce_mean_structure (g g' : DGLGraph) (msgs : Tensor) :
  num_nodes g' = num_nodes g -> edges g' = edges g ->
  reduce_mean g' msgs = reduce_mean g msgs.
Proof.
  intros Hn He.
  unfold reduce_mean, in_degrees, in_degree, in_edges, num_edges.
  rewrite Hn, He. reflexivity.
Qed.

Lemma SAGEConv_forward_structure (self : SAGEConv.t) (h : Tensor) (g g' : DGLGraph) :
  num_nodes g' = num_nodes g -> edges g' = edges g ->
  fst (SAGEConv.forward self h g') = fst (SAGEConv.forward self h g).
Proof.
  intros Hn He. rewrite !SAGEConv_forward_run, !SAGEConv_aggregate_run. simpl.
  rewrite Hn, He.
  destruct (nrows h =? num_nodes g); [|reflexivity].
  destruct (index_select h (map fst (edges g))) as [hu|e]; simpl; [|reflexivity].
  rewrite (reduce_mean_structure g g' hu Hn He). reflexivity.
Qed.

Lemma WeightedSAGEConv_forward_structure (self : WeightedSAGEConv.t) (h w : Tensor)
    (g g' : DGLGraph) :
  num_nodes g' = num_nodes g -> edges g' = edges g ->
  fst (WeightedSAGEConv.forward self h w g') = fst (WeightedSAGEConv.forward self h w g).
Proof.
  intros Hn He.
  rewrite !WeightedSAGEConv_forward_run, !WeightedSAGEConv_aggregate_run. simpl.
  unfold num_edges. rewrite Hn, He.
  destruct (nrows h =? num_nodes g); [|reflexivity].
  destruct (nrows w =? length (edges g)); [|reflexivity].
  destruct (index_select h (map fst (edges g))) as [hu|e]; simpl; [|reflexivity].
  destruct (torch.mul DGLError hu w) as [m|e]; simpl; [|reflexivity].
  rewrite (reduce_mean_structure g g' m Hn He). reflexivity.
Qed.

(** ** The dot-product predictor *)

Lemma column0_dot_rows {A} (f k : A -> list Q) (es : list A) :
  map (fun r => hd 0%Q r) (zip_with (fun a b => [dot a b]) (map f es) (map k es))
  = map (fun e => dot (f e) (k e)) es.
Proof.
  induction es as [|e es IH]; simpl; [reflexivity|]. f_equal. exact IH.
Qed.

Lemma DotPredictor_forward_spec (g : DGLGraph) (h : Tensor) :
  valid_graph g = true -> nrows h = num_nodes g ->
  fst (DotPredictor.forward h g) = Ok (dot_scores g h).
Proof.
  intros Hg Hn. destruct g as [n es nd ed].
  unfold DotPredictor.forward, DotPredictor.body, local_scope, bind, set_ndata.
  simpl in *. rewrite Hn, Nat.eqb_refl.
  unfold apply_edges, messages. simpl. rewrite !lookup_field_insert. simpl.
  pose proof (index_select_sources (mkGraph n es nd ed) h Hg Hn) as Hs.
  pose proof (index_select_destinations (mkGraph n es nd ed) h Hg Hn) as Hd.
  simpl in Hs, Hd. rewrite Hs, Hd. simpl. rewrite Nat.eqb_refl. simpl.
  unfold get_edata. simpl. rewrite lookup_insert_eq. simpl.
  unfold torch.column0, dot_scores. simpl.
  rewrite (column0_dot_rows (fun e => row h (fst e)) (fun e => row h (snd e))).
  reflexivity.
Qed.

Lemma Qplus_0_r_eq (x : Q) : (x + 0)%Q = x.
Proof. destruct x as [n d]. unfold Qplus. simpl. f_equal; lia. Qed.

Lemma Qplus_assoc_eq (x y z : Q) : (x + y + z)%Q = (x + (y + z))%Q.
Proof.
  destruct x as [n1 d1], y as [n2 d2], z as [n3 d3]. unfold Qplus. simpl.
  f_equal; [|apply eq_sym, Pos.mul_assoc].
  rewrite !Pos2Z.inj_mul. ring.
Qed.

Lemma fold_left_Qplus (l : list Q) (acc : Q) :
  fold_left Qplus l acc = (acc + fold_right Qplus 0 l)%Q.
Proof.
  revert acc. induction l as [|x l IH]; intros acc; simpl.
  - symmetry. apply Qplus_0_r_eq.
  - rewrite IH. apply Qplus_assoc_eq.
Qed.

(** [(a * b).sum(-1)] is the dot product as the specification writes
    it. *)
Lemma dot_sum_products (a b : list Q) : dot a b = sum_products a b.
Proof.
  unfold dot. rewrite fold_left_Qplus, Qplus_0_l_eq.
  revert b. induction a as [|x a IH]; intros [|y b]; simpl; try reflexivity.
  f_equal. apply IH.
Qed.

(** C8.  For every candidate edge (u, v) and features of positive
    width, the predictor returns the dot product of the feature vectors
    of u and v, the sum of the products of their components, and leaves
    the graph as it was; for h_u = [1, 2] and h_v = [3, 4] the score is
    1*3 + 2*4 = 11. *)
Theorem dot_predictor_scores_edges :
  (forall (g : DGLGraph) (h : Tensor),
      valid_graph g = true ->
      nrows h = num_nodes g ->
      0 < cols h ->
      fst (DotPredictor.forward h g)
      = Ok (map (fun e => sum_products (row h (fst e)) (row h (snd e))) (edges g))
      /\ snd (DotPredictor.forward h g) = g)
  /\ (forall x1 x2 y1 y2 : Q,
        fst (DotPredictor.forward (mkTensor 2 [[x1; x2]; [y1; y2]]) g_uv)
        = Ok [(x1 * y1 + (x2 * y2 + 0))%Q])
  /\ sum_products [1; 2]%Q [3; 4]%Q = 11%Q
  /\ fst (DotPredictor.forward H_uv g_uv) = Ok [11%Q].
Proof.
  assert (H : forall (g : DGLGraph) (h : Tensor),
             valid_graph g = true -> nrows h = num_nodes g ->
             fst (DotPredictor.forward h g)
             = Ok (map (fun e => sum_products (row h (fst e)) (row h (snd e)))
                       (edges g))).
  { intros g h Hg Hn. rewrite DotPredictor_forward_spec by assumption.
    unfold dot_scores. f_equal. apply map_ext. intros e. apply dot_sum_products. }
  split; [|split; [|split; vm_compute; reflexivity]].
  - intros g h Hg Hn Hd. split.
    + apply H; assumption.
    + apply local_scope_restores, DotPredictor_body_keeps.
  - intros x1 x2 y1 y2. rewrite H by reflexivity. reflexivity.
Qed.

Lemma dot_predictor_scores_edges_witness :
  valid_graph g_uv = true
  /\ nrows H_uv = num_nodes g_uv
  /\ 0 < cols H_uv
  /\ fst (DotPredictor.forward H_uv g_uv)
     = Ok (map (fun e => sum_products (row H_uv (fst e)) (row H_uv (snd e)))
               (edges g_uv))
  /\ snd (DotPredictor.forward H_uv g_uv) = g_uv.
Proof.
  assert (Hd : 0 < cols H_uv) by (simpl; lia).
  split; [reflexivity|]. split; [reflexivity|]. split; [exact Hd|].
  apply (proj1 dot_predictor_scores_edges g_uv H_uv eq_refl eq_refl Hd).
Defined.

(** ** Negative-edge sampling *)

Lemma nonzero_elem (a : np.matrix) (i j : nat) :
  (i, j) ∈ np.nonzero a <-> i < np.nr a /\ j < np.nc a /\ np.entry a i j <> 0%Z.
Proof.
  unfold np.nonzero. rewrite list_elem_of_In, in_flat_map. split.
  - intros (i' & Hi' & Hin). apply in_flat_map in Hin as (j' & Hj' & Hin).
    apply in_seq in Hi', Hj'.
    destruct (Z.eqb (np.entry a i' j') 0) eqn:E; simpl in Hin; [contradiction|].
    destruct Hin as [Heq|[]]. inversion Heq; subst.
    apply Z.eqb_neq in E. repeat split; try lia; exact E.
  - intros (Hi & Hj & Hne). exists i. split; [apply in_seq; lia|].
    apply in_flat_map. exists j. split; [apply in_seq; lia|].
    apply Z.eqb_neq in Hne. rewrite Hne. left. reflexivity.
Qed.

Lemma bidx_lt (n i : nat) : i < n -> np.bidx n i = i.
Proof.
  intros Hi. unfold np.bidx. destruct (n =? 1) eqn:E; [|reflexivity].
  apply Nat.eqb_eq in E. lia.
Qed.

(** When the adjacency matrix has one row and one column per node, a
    pair of nodes is a candidate negative edge exactly if the number of
    edges between them, plus one on the diagonal, is not one. *)
Lemma negative_edges_elem (g : DGLGraph) (nu nv : list nat) (i j : nat) :
  S (max_list (map fst (edges g))) = num_nodes g ->
  S (max_list (map snd (edges g))) = num_nodes g ->
  negative_edges g = Ok (nu, nv) ->
  (i, j) ∈ zip nu nv
  <-> i < num_nodes g /\ j < num_nodes g
      /\ (Z.of_nat (multiplicity g i j) + (if Nat.eqb i j then 1 else 0) <> 1)%Z.
Proof.
  intros Hu Hv H. unfold negative_edges, np.coo_todense in H.
  destruct (map fst (edges g)) as [|u0 us] eqn:Eu; [discriminate|].
  rewrite <- Eu in H. simpl in H.
  unfold np.sub in H. simpl in H.
  rewrite <- Eu in Hu. rewrite Hu, Hv in H.
  unfold np.bdim in H. rewrite Nat.eqb_refl in H. simpl in H.
  inversion H as [[Hnu Hnv]]. clear H.
  rewrite zip_fst_snd. rewrite nonzero_elem. simpl.
  split.
  - intros (Hi & Hj & Hne). repeat split; try assumption.
    rewrite !bidx_lt in Hne by assumption.
    rewrite zip_fst_snd in Hne. unfold multiplicity. lia.
  - intros (Hi & Hj & Hne). repeat split; try assumption.
    rewrite !bidx_lt by assumption.
    rewrite zip_fst_snd. unfold multiplicity in Hne.
    destruct (i =? j); lia.
Qed.

Lemma multiplicity_pos (g : DGLGraph) (i j : nat) :
  (i, j) ∈ edges g <-> 0 < multiplicity g i j.
Proof.
  unfold multiplicity. split.
  - intros Hin.
    assert (Hf : (i, j) ∈ filter (fun e => e = (i, j)) (edges g))
      by (apply list_elem_of_filter; split; [reflexivity | exact Hin]).
    destruct (filter (fun e => e = (i, j)) (edges g)); [inversion Hf | simpl; lia].
  - intros Hlen.
    destruct (filter (fun e => e = (i, j)) (edges g)) as [|e l] eqn:E;
      [simpl in Hlen; lia|].
    assert (He : e ∈ filter (fun e => e = (i, j)) (edges g))
      by (rewrite E; left).
    apply list_elem_of_filter in He as [-> He]. exact He.
Qed.

Lemma multiplicity_NoDup (g : DGLGraph) (i j : nat) :
  NoDup (edges g) -> multiplicity g i j <= 1.
Proof.
  unfold multiplicity. induction (edges g) as [|e es IH]; intros Hnd; simpl; [lia|].
  apply NoDup_cons in Hnd as [Hne Hnd].
  destruct (decide (e = (i, j))) as [He|He].
  - rewrite filter_cons_True by exact He. simpl.
    destruct (filter (fun e0 => e0 = (i, j)) es) as [|e' l] eqn:E; [simpl; lia|].
    exfalso. apply Hne.
    assert (He' : e' ∈ filter (fun e0 => e0 = (i, j)) es) by (rewrite E; left).
    apply list_elem_of_filter in He' as [-> He']. rewrite He. exact He'.
  - rewrite filter_cons_False by exact He. apply IH, Hnd.
Qed.

(** A candidate negative edge is an edge of the graph exactly if it is
    a self-loop or an edge that the graph has more than once. *)
Lemma negative_edge_is_edge_iff (g : DGLGraph) (nu nv : list nat) (i j : nat) :
  S (max_list (map fst (edges g))) = num_nodes g ->
  S (max_list (map snd (edges g))) = num_nodes g ->
  negative_edges g = Ok (nu, nv) ->
  (i, j) ∈ zip nu nv /\ (i, j) ∈ edges g
  <-> (i, j) ∈ edges g /\ (i = j \/ 2 <= multiplicity g i j).
Proof.
  intros Hu Hv H. rewrite (negative_edges_elem g nu nv i j Hu Hv H).
  split.
  - intros [(Hi & Hj & Hne) Hin]. split; [exact Hin|].
    apply multiplicity_pos in Hin.
    destruct (i =? j) eqn:E; [apply Nat.eqb_eq in E; left; exact E | right; lia].
  - intros [Hin Hor]. split; [|exact Hin].
    assert (Hi : i < num_nodes g).
    { rewrite <- Hu. apply Nat.lt_succ_r, max_list_elem_of_le.
      apply list_elem_of_fmap. exists (i, j). split; [reflexivity | exact Hin]. }
    assert (Hj : j < num_nodes g).
    { rewrite <- Hv. apply Nat.lt_succ_r, max_list_elem_of_le.
      apply list_elem_of_fmap. exists (i, j). split; [reflexivity | exact Hin]. }
    repeat split; try assumption.
    apply multiplicity_pos in Hin.
    destruct Hor as [->|Hm]; [rewrite Nat.eqb_refl; lia|].
    destruct (i =? j); lia.
Qed.

(** On a graph without self-loops and without repeated edges, no
    candidate negative edge is an edge. *)
Lemma negative_edges_of_simple_graph (g : DGLGraph) (nu nv : list nat) :
  S (max_list (map fst (edges g))) = num_nodes g ->
  S (max_list (map snd (edges g))) = num_nodes g ->
  NoDup (edges g) ->
  Forall (fun e => fst e <> snd e) (edges g) ->
  negative_edges g = Ok (nu, nv) ->
  forall p, p ∈ zip nu nv -> p ∉ edges g.
Proof.
  intros Hu Hv Hnd Hloop H [i j] Hp Hin.
  destruct (proj1 (negative_edge_is_edge_iff g nu nv i j Hu Hv H) (conj Hp Hin))
    as [_ [Heq|Hm]].
  - rewrite Forall_forall in Hloop. apply (Hloop (i, j) Hin). exact Heq.
  - pose proof (multiplicity_NoDup g i j Hnd). lia.
Qed.

(** C9.  The sampling of negative edges draws with replacement: a list
    that repeats one index below the number of candidates throughout
    is a possible draw.  And a sampled "negative"
    pair can be an edge of the graph: on a graph with the self-loop
    2 -> 2, the pair (2, 2) is a candidate and is drawn, twice, by the
    draw [3; 3; 0; 0]. *)
Theorem negative_sampling_can_pick_edges :
  (forall n size i : nat,
      i < n -> np.choice_outcome n size (repeat i size) = true)
  /\ valid_graph g_loop = true
  /\ negative_edges g_loop = Ok ([0; 1; 2; 2], [2; 0; 1; 2])
  /\ np.choice_outcome 4 (num_edges g_loop) [3; 3; 0; 0] = true
  /\ exists s : neg_split,
       sample_negative_edges g_loop [3; 3; 0; 0] = Ok s
       /\ sampled_pairs s = [(2, 2); (2, 2); (0, 2); (0, 2)]
       /\ (2, 2) ∈ sampled_pairs s
       /\ (2, 2) ∈ edges g_loop.
Proof.
  split.
  - intros n size i Hi. unfold np.choice_outcome.
    rewrite repeat_length, Nat.eqb_refl. simpl.
    apply forallb_forall. intros x Hx. apply repeat_spec in Hx. subst x.
    apply Nat.ltb_lt, Hi.
  - split; [reflexivity|]. split; [vm_compute; reflexivity|].
    split; [reflexivity|].
    eexists. split; [vm_compute; reflexivity|].
    split; [reflexivity|]. split.
    + unfold sampled_pairs. simpl. left.
    + unfold g_loop. simpl. do 3 right. left.
Qed.

Lemma negative_sampling_can_pick_edges_witness :
  np.choice_outcome 4 4 (repeat 3 4) = true.
Proof.
  apply (proj1 negative_sampling_can_pick_edges 4 4 3). lia.
Defined.

(** ** Failures *)

Lemma SAGEConv_forward_ok_iff (in_feat out_feat : nat) (W : list (list Q))
    (b : list Q) (g : DGLGraph) (h : Tensor) :
  valid_graph g = true ->
  is_ok (fst (SAGEConv.forward (SAGEConv.init in_feat out_feat W b) h g)) = true
  <-> torch.shape h = (num_nodes g, in_feat).
Proof.
  intros Hg. rewrite SAGEConv_forward_run, SAGEConv_aggregate_run. simpl.
  unfold torch.shape.
  destruct (nrows h =? num_nodes g) eqn:En.
  - apply Nat.eqb_eq in En.
    rewrite (index_select_sources g h Hg En). simpl.
    rewrite reduce_mean_spec by apply nrows_source_features.
    unfold torch.cat. rewrite nrows_mean_of_incoming, En, Nat.eqb_refl. simpl.
    unfold Linear_forward. simpl.
    destruct (cols h + cols h =? in_feat * 2) eqn:Ec; simpl.
    + apply Nat.eqb_eq in Ec. split; [intros _; f_equal; lia | reflexivity].
    + apply Nat.eqb_neq in Ec. split; [discriminate|].
      intros Hs. inversion Hs. lia.
  - apply Nat.eqb_neq in En. simpl. split; [discriminate|].
    intros Hs. inversion Hs. contradiction.
Qed.

Lemma WeightedSAGEConv_forward_ok_iff (in_feat out_feat : nat) (W : list (list Q))
    (b : list Q) (g : DGLGraph) (h w : Tensor) :
  valid_graph g = true ->
  is_ok (fst (WeightedSAGEConv.forward (WeightedSAGEConv.init in_feat out_feat W b) h w g))
  = true
  <-> nrows h = num_nodes g
      /\ nrows w = num_edges g
      /\ torch.broadcastable (cols h) (cols w) = true
      /\ cols h + torch.bwidth (cols h) (cols w) = in_feat * 2.
Proof.
  intros Hg. rewrite WeightedSAGEConv_forward_run, WeightedSAGEConv_aggregate_run. simpl.
  destruct (nrows h =? num_nodes g) eqn:En;
    [apply Nat.eqb_eq in En | apply Nat.eqb_neq in En; simpl; split;
                              [discriminate | intros [? _]; contradiction]].
  destruct (nrows w =? num_edges g) eqn:Ew;
    [apply Nat.eqb_eq in Ew | apply Nat.eqb_neq in Ew; simpl; split;
                              [discriminate | intros (_ & ? & _); contradiction]].
  rewrite (index_select_sources g h Hg En). simpl.
  destruct (torch.broadcastable (cols h) (cols w)) eqn:Eb.
  - rewrite (mul_source_features g h w Ew Eb). simpl.
    rewrite reduce_mean_spec by (apply nrows_weighted_source_features; exact Ew).
    unfold torch.cat. rewrite nrows_mean_of_incoming, En, Nat.eqb_refl. simpl.
    unfold Linear_forward. simpl.
    destruct (cols h + torch.bwidth (cols h) (cols w) =? in_feat * 2) eqn:Ec; simpl.
    + apply Nat.eqb_eq in Ec. split; [intros _; auto | reflexivity].
    + apply Nat.eqb_neq in Ec. split; [discriminate|].
      intros (_ & _ & _ & ?). contradiction.
  - unfold torch.mul. rewrite nrows_source_features, Ew, Nat.eqb_refl. simpl.
    rewrite Eb. simpl. split; [discriminate|].
    intros (_ & _ & ? & _). discriminate.
Qed.

Lemma graph_valid (u v : list nat) (n : nat) (g : DGLGraph) :
  dgl.graph u v n = Ok g -> valid_graph g = true.
Proof.
  unfold dgl.graph. destruct (negb (length u =? length v)); [discriminate|].
  destruct (forallb (fun i => i <? n) (u ++ v)) eqn:E; [|discriminate].
  intros H. inversion H. subst g. clear H.
  unfold valid_graph. simpl. apply forallb_forall. intros [a c] Hin.
  rewrite forallb_forall in E. simpl.
  apply list_elem_of_In, elem_of_zip_l in Hin as Ha.
  apply list_elem_of_In in Hin. apply list_elem_of_In, elem_of_zip_r in Hin as Hc.
  simpl in Ha, Hc.
  rewrite (E a), (E c); [reflexivity| |]; apply in_or_app;
    [right | left]; apply list_elem_of_In; assumption.
Qed.

Lemma graph_rejects (u v : list nat) (n : nat) :
  Exists (fun i => n <= i) (u ++ v) -> dgl.graph u v n = Raise DGLError.
Proof.
  intros H. unfold dgl.graph. destruct (negb (length u =? length v)); [reflexivity|].
  destruct (forallb (fun i => i <? n) (u ++ v)) eqn:E; [|reflexivity].
  rewrite forallb_forall in E. apply Exists_exists in H as (i & Hi & Hle).
  apply list_elem_of_In in Hi. apply E, Nat.ltb_lt in Hi. lia.
Qed.

Lemma SAGEConv_forward_error (self : SAGEConv.t) (g : DGLGraph) (h : Tensor) (e : exn) :
  valid_graph g = true ->
  fst (SAGEConv.forward self h g) = Raise e ->
  e = DGLError \/ e = RuntimeError.
Proof.
  intros Hg. rewrite SAGEConv_forward_run, SAGEConv_aggregate_run. simpl.
  destruct (nrows h =? num_nodes g) eqn:En; simpl;
    [apply Nat.eqb_eq in En | intros H; inversion H; left; reflexivity].
  rewrite (index_select_sources g h Hg En). simpl.
  unfold torch.cat. destruct (nrows h =? _); simpl;
    [|intros H; inversion H; right; reflexivity].
  unfold Linear_forward. destruct (_ =? _); simpl; [discriminate|].
  intros H. inversion H. right. reflexivity.
Qed.

Lemma WeightedSAGEConv_forward_error (self : WeightedSAGEConv.t) (g : DGLGraph)
    (h w : Tensor) (e : exn) :
  valid_graph g = true ->
  fst (WeightedSAGEConv.forward self h w g) = Raise e ->
  e = DGLError \/ e = RuntimeError.
Proof.
  intros Hg. rewrite WeightedSAGEConv_forward_run, WeightedSAGEConv_aggregate_run. simpl.
  destruct (nrows h =? num_nodes g) eqn:En; simpl;
    [apply Nat.eqb_eq in En | intros H; inversion H; left; reflexivity].
  destruct (nrows w =? num_edges g); simpl;
    [|intros H; inversion H; left; reflexivity].
  rewrite (index_select_sources g h Hg En). simpl.
  unfold torch.mul.
  destruct (negb _); simpl; [intros H; inversion H; left; reflexivity|].
  destruct (torch.broadcastable _ _); simpl;
    [|intros H; inversion H; left; reflexivity].
  unfold torch.cat. destruct (nrows h =? _); simpl;
    [|intros H; inversion H; right; reflexivity].
  unfold Linear_forward. destruct (_ =? _); simpl; [discriminate|].
  intros H. inversion H. right. reflexivity.
Qed.

(** The widths that the weighted layer accepts: those of the input
    contract, and a feature of width one with weights of width
    2 * Din - 1. *)
Lemma weighted_widths (in_feat d k : nat) :
  0 < in_feat ->
  torch.broadcastable d k = true /\ d + torch.bwidth d k = in_feat * 2
  <-> (d = in_feat /\ (k = 1 \/ k = in_feat)) \/ (d = 1 /\ k = 2 * in_feat - 1).
Proof.
  intros Hd. unfold torch.broadcastable, torch.bwidth.
  destruct (Nat.eqb_spec d k), (Nat.eqb_spec k 1), (Nat.eqb_spec d 1); simpl;
    (split; [intros [Hb Hc]; try discriminate Hb; lia
            | intros H; split; [try reflexivity; lia | lia]]).
Qed.

Lemma WeightedSAGEConv_forward_ok_dims (in_feat out_feat : nat) (W : list (list Q))
    (b : list Q) (g : DGLGraph) (h w : Tensor) :
  valid_graph g = true ->
  0 < in_feat ->
  is_ok (fst (WeightedSAGEConv.forward (WeightedSAGEConv.init in_feat out_feat W b) h w g))
  = true
  <-> dims_consistent in_feat g h w
      \/ (torch.shape h = (num_nodes g, 1)
          /\ torch.shape w = (num_edges g, 2 * in_feat - 1)).
Proof.
  intros Hg Hd. rewrite (WeightedSAGEConv_forward_ok_iff _ _ _ _ _ _ _ Hg).
  unfold dims_consistent, torch.shape.
  pose proof (weighted_widths in_feat (cols h) (cols w) Hd) as Hw.
  split.
  - intros (Hn & He & Hb & Hc).
    destruct (proj1 Hw (conj Hb Hc)) as [[H1 [H2|H2]]|[H1 H2]].
    + left. split; [|left]; congruence.
    + left. split; [|right]; congruence.
    + right. split; congruence.
  - intros [[Hh [Hk|Hk]]|[Hh Hk]];
      injection Hh as Hn Hc; injection Hk as He Hc';
      (split; [exact Hn|]; split; [exact He|]); apply Hw; lia.
Qed.

(** C6, as the code has it.  The layers check no shape themselves and
    have no error class of their own: a call fails where a library
    call fails, with the exception of the library, [DGLError] or
    [RuntimeError], which reaches the caller in place of an output.
    On a graph whose edges join existing nodes, for a positive declared
    input dimension Din, the unweighted layer fails exactly when the
    feature matrix is not of shape (N, Din).  The weighted layer fails
    whenever the features and the weights are not of the shapes (N, Din)
    and (E, 1) or (E, Din), with one exception, in which it returns an
    output: features of shape (N, 1) with weights of shape
    (E, 2 * Din - 1). *)
Theorem forward_fails_where_the_library_fails :
  (forall (in_feat out_feat : nat) (W : list (list Q)) (b : list Q)
          (g : DGLGraph) (h : Tensor),
      valid_graph g = true ->
      0 < in_feat ->
      (is_ok (fst (SAGEConv.forward (SAGEConv.init in_feat out_feat W b) h g)) = true
       <-> torch.shape h = (num_nodes g, in_feat))
      /\ forall e, fst (SAGEConv.forward (SAGEConv.init in_feat out_feat W b) h g)
                   = Raise e ->
                   e = DGLError \/ e = RuntimeError)
  /\ (forall (in_feat out_feat : nat) (W : list (list Q)) (b : list Q)
             (g : DGLGraph) (h w : Tensor),
        valid_graph g = true ->
        0 < in_feat ->
        (is_ok (fst (WeightedSAGEConv.forward
                       (WeightedSAGEConv.init in_feat out_feat W b) h w g)) = true
         <-> dims_consistent in_feat g h w
             \/ (torch.shape h = (num_nodes g, 1)
                 /\ torch.shape w = (num_edges g, 2 * in_feat - 1)))
        /\ forall e, fst (WeightedSAGEConv.forward
                            (WeightedSAGEConv.init in_feat out_feat W b) h w g)
                     = Raise e ->
                     e = DGLError \/ e = RuntimeError).
Proof.
  split.
  - intros in_feat out_feat W b g h Hg Hd. split.
    + apply SAGEConv_forward_ok_iff, Hg.
    + intros e. apply SAGEConv_forward_error, Hg.
  - intros in_feat out_feat W b g h w Hg Hd. split.
    + apply WeightedSAGEConv_forward_ok_dims; assumption.
    + intros e. apply WeightedSAGEConv_forward_error, Hg.
Qed.

Lemma forward_fails_where_the_library_fails_witness :
  valid_graph g3 = true
  /\ 0 < 2
  /\ (is_ok (fst (SAGEConv.forward (SAGEConv.init 2 3
                    [[1; 0; 0; 0]; [0; 1; 1; 0]; [0; 0; 0; 2]]%Q [0; 1; 0]%Q) X3_wide g3))
      = true
      <-> torch.shape X3_wide = (num_nodes g3, 2))
  /\ (is_ok (fst (WeightedSAGEConv.forward (WeightedSAGEConv.init 2 3
                    [[1; 0; 0; 0]; [0; 1; 1; 0]; [0; 0; 0; 2]]%Q [0; 1; 0]%Q)
                    X3_narrow W3_wide g3))
      = true
      <-> dims_consistent 2 g3 X3_narrow W3_wide
          \/ (torch.shape X3_narrow = (num_nodes g3, 1)
              /\ torch.shape W3_wide = (num_edges g3, 2 * 2 - 1))).
Proof.
  assert (Hd : 0 < 2) by lia.
  split; [reflexivity|]. split; [exact Hd|]. split.
  - apply (proj1 forward_fails_where_the_library_fails 2 3
             [[1; 0; 0; 0]; [0; 1; 1; 0]; [0; 0; 0; 2]]%Q [0; 1; 0]%Q g3 X3_wide
             eq_refl Hd).
  - apply (proj2 forward_fails_where_the_library_fails 2 3
             [[1; 0; 0; 0]; [0; 1; 1; 0]; [0; 0; 0; 2]]%Q [0; 1; 0]%Q g3
             X3_narrow W3_wide eq_refl Hd).
Defined.

(** C6, as stated, fails.  The weighted layer that declares two input
    features accepts a feature matrix of width one with edge weights of
    width three, neither of which is consistent with the declared
    input dimension, and returns an output: the weights broadcast
    against the features to messages of width three, and the
    concatenation has the width four that the linear submodule
    expects.  And where the unweighted layer does fail on a matrix that
    is too wide, the exception is a [RuntimeError]. *)
Lemma shape_mismatch_goes_undetected :
  valid_graph g3 = true
  /\ ~ dims_consistent 2 g3 X3_narrow W3_wide
  /\ is_ok (fst (WeightedSAGEConv.forward wlayer23 X3_narrow W3_wide g3)) = true
  /\ fst (SAGEConv.forward layer23 X3_wide g3) = Raise RuntimeError
  /\ exn_name RuntimeError <> "ShapeMismatch"%string.
Proof.
  split; [reflexivity|]. split.
  - intros [Hs _]. vm_compute in Hs. discriminate.
  - split; [vm_compute; reflexivity|]. split; [vm_compute; reflexivity|].
    vm_compute. discriminate.
Qed.

(** ** The user-defined functions of the notebook *)

Lemma edge_batch_src (g : DGLGraph) (h : Tensor) :
  valid_graph g = true -> nrows h = num_nodes g ->
  ndata g !! "h"%string = Some h ->
  lookup_field (src (edge_batch g)) "h" = Ok (source_features g h).
Proof.
  intros Hg Hn Hh. unfold lookup_field, edge_batch. simpl.
  rewrite lookup_omap, Hh. simpl. unfold select_opt.
  rewrite (index_select_sources g h Hg Hn). reflexivity.
Qed.

(** [u_mul_e_udf] computes the messages that [fn.u_mul_e('h', 'w', 'm')]
    computes, under the same field name. *)
Lemma u_mul_e_udf_is_u_mul_e (g : DGLGraph) (h w : Tensor) :
  valid_graph g = true -> nrows h = num_nodes g ->
  ndata g !! "h"%string = Some h ->
  edata g !! "w"%string = Some w ->
  nrows w = num_edges g ->
  torch.broadcastable (cols h) (cols w) = true ->
  u_mul_e_udf (edge_batch g) = Ok {[ "m"%string := weighted_source_features g h w ]}
  /\ messages g (fn.u_mul_e "h" "w" "m") = Ok ("m"%string, weighted_source_features g h w).
Proof.
  intros Hg Hn Hh Hw Hrows Hb. split.
  - unfold u_mul_e_udf. rewrite (edge_batch_src g h Hg Hn Hh). simpl.
    unfold lookup_field. rewrite Hw. simpl.
    pose proof (mul_source_features g h w Hrows Hb) as Hmul.
    unfold torch.mul in *.
    destruct (negb (nrows (source_features g h) =? nrows w)); [discriminate|].
    destruct (torch.broadcastable (cols (source_features g h)) (cols w));
      [|discriminate].
    inversion Hmul as [Heq]. simpl. rewrite Heq. reflexivity.
  - unfold messages, lookup_field. rewrite Hh, Hw. simpl.
    rewrite (index_select_sources g h Hg Hn). simpl.
    rewrite (mul_source_features g h w Hrows Hb). reflexivity.
Qed.

(** On the group of the nodes of in-degree [d], which is not zero,
    [mean_udf] returns the rows that [fn.mean('m', 'h_N')] gives these
    nodes. *)
Lemma mean_udf_is_mean (g : DGLGraph) (msgs : Tensor) (d : nat) :
  nrows msgs = num_edges g ->
  0 < d ->
  mean_udf (node_batch g "m" msgs d)
  = Ok {[ "h_N"%string :=
            mkTensor (cols msgs) (map (row (reduce_mean g msgs)) (bucket g d)) ]}.
Proof.
  intros Hrows Hd. unfold mean_udf, node_batch. simpl.
  rewrite lookup_singleton_eq. unfold torch.mean1. simpl.
  do 3 f_equal. rewrite map_map. apply map_ext_in.
  intros v Hv. unfold bucket in Hv.
  apply list_elem_of_In, list_elem_of_filter in Hv as [Hdeg Hv].
  apply list_elem_of_In, in_seq in Hv.
  rewrite (reduce_mean_spec g msgs Hrows).
  rewrite (row_lookup _ _ _ (mean_of_incoming_lookup g msgs v ltac:(lia))).
  pose proof (length_in_messages g (rows msgs) v Hrows) as Hlen.
  rewrite Hdeg in Hlen.
  destruct (in_messages g (rows msgs) v) as [|m ms] eqn:E; [simpl in Hlen; lia|].
  unfold mean_vec. rewrite Hlen. reflexivity.
Qed.

(** ** The best accuracies of the training loop *)

Lemma Qltb_lt (a b : Q) : Qltb a b = true <-> (a < b)%Q.
Proof.
  unfold Qltb. rewrite negb_true_iff. split.
  - intros H. apply Qnot_le_lt. intros Hle. apply Qle_bool_iff in Hle. congruence.
  - intros H. destruct (Qle_bool b a) eqn:E; [|reflexivity].
    apply Qle_bool_iff in E. exfalso. exact (Qlt_not_le _ _ H E).
Qed.

Lemma Qltb_ge (a b : Q) : Qltb a b = false <-> (b <= a)%Q.
Proof.
  unfold Qltb. rewrite negb_false_iff. apply Qle_bool_iff.
Qed.

Lemma train_best_snoc (accs : list (Q * Q)) (a : Q * Q) :
  train_best (accs ++ [a]) = save_best (train_best accs) a.
Proof. unfold train_best. rewrite fold_left_app. reflexivity. Qed.

(** X1.  After any number of epochs, [best_val_acc] is at least the
    validation accuracy of every epoch, and the pair of [best_val_acc]
    and [best_test_acc] is either still (0, 0), no epoch having had a
    validation accuracy above zero, or the validation and test accuracy
    of the first epoch whose validation accuracy is the highest: the
    test accuracy that is kept is the one of that epoch, not the
    highest test accuracy. *)
Theorem train_best_is_first_best_epoch (accs : list (Q * Q)) :
  (forall a, a ∈ accs -> (fst a <= best_val_acc (train_best accs))%Q)
  /\ ((train_best accs = mkBest 0 0 /\ forall a, a ∈ accs -> (fst a <= 0)%Q)
      \/ exists (k : nat) (v t : Q),
           accs !! k = Some (v, t)
           /\ train_best accs = mkBest v t
           /\ (0 < v)%Q
           /\ forall j a, j < k -> accs !! j = Some a -> (fst a < v)%Q).
Proof.
  induction accs as [|a accs IH] using rev_ind.
  - split; [intros a Ha; inversion Ha|].
    left. split; [reflexivity | intros a Ha; inversion Ha].
  - destruct IH as [Hmax Hcase]. rewrite train_best_snoc. unfold save_best.
    destruct (Qltb (best_val_acc (train_best accs)) (fst a)) eqn:E.
    + apply Qltb_lt in E. split.
      * intros x Hx. simpl. apply elem_of_app in Hx as [Hx|Hx].
        -- apply Qlt_le_weak. eapply Qle_lt_trans; [apply Hmax, Hx | exact E].
        -- apply list_elem_of_singleton in Hx. subst x. apply Qle_refl.
      * right. exists (length accs), (fst a), (snd a).
        split; [rewrite lookup_app_r, Nat.sub_diag by lia; destruct a; reflexivity|].
        split; [reflexivity|]. split.
        -- destruct Hcase as [[Hb _]|(k & v & t & _ & Hb & Hv & _)];
             rewrite Hb in E; simpl in E; [exact E|].
           eapply Qlt_trans; [exact Hv | exact E].
        -- intros j x Hj Hx. rewrite lookup_app_l in Hx by exact Hj.
           eapply Qle_lt_trans; [|exact E].
           apply Hmax. eapply list_elem_of_lookup_2, Hx.
    + apply Qltb_ge in E. split.
      * intros x Hx. apply elem_of_app in Hx as [Hx|Hx]; [apply Hmax, Hx|].
        apply list_elem_of_singleton in Hx. subst x. exact E.
      * destruct Hcase as [[Hb Hle]|(k & v & t & Hk & Hb & Hv & Hfirst)].
        -- left. split; [exact Hb|]. intros x Hx.
           apply elem_of_app in Hx as [Hx|Hx]; [apply Hle, Hx|].
           apply list_elem_of_singleton in Hx. subst x.
           rewrite Hb in E. exact E.
        -- right. exists k, v, t.
           assert (Hlt : k < length accs) by (eapply lookup_lt_Some, Hk).
           split; [rewrite lookup_app_l by exact Hlt; exact Hk|].
           split; [exact Hb|]. split; [exact Hv|].
           intros j x Hj Hx. rewrite lookup_app_l in Hx by lia.
           eapply Hfirst; eassumption.
Qed.

(** ** More on the dot-product predictor *)

Lemma Qmult_comm_eq (a b : Q) : (a * b)%Q = (b * a)%Q.
Proof.
  destruct a as [n d], b as [m k]. unfold Qmult. simpl.
  f_equal; [apply Z.mul_comm | apply Pos.mul_comm].
Qed.

Lemma dot_comm (a b : list Q) : dot a b = dot b a.
Proof.
  unfold dot. f_equal. revert b.
  induction a as [|x a IH]; intros [|y b]; simpl; try reflexivity.
  f_equal; [apply Qmult_comm_eq | apply IH].
Qed.

Lemma valid_graph_reverse (g g' : DGLGraph) :
  num_nodes g' = num_nodes g ->
  edges g' = map (fun e => (snd e, fst e)) (edges g) ->
  valid_graph g = true -> valid_graph g' = true.
Proof.
  intros Hn He Hg. apply valid_graph_Forall. apply valid_graph_Forall in Hg.
  rewrite He, Hn, Forall_map. eapply Forall_impl; [exact Hg|].
  simpl. intros e [H1 H2]. split; assumption.
Qed.

(** X2.  The dot-product predictor does not see the direction of an
    edge: on the graph with every edge reversed it returns the same
    scores, edge by edge. *)
Theorem dot_predictor_ignores_direction (g g' : DGLGraph) (h : Tensor) :
  valid_graph g = true ->
  nrows h = num_nodes g ->
  num_nodes g' = num_nodes g ->
  edges g' = map (fun e => (snd e, fst e)) (edges g) ->
  fst (DotPredictor.forward h g') = fst (DotPredictor.forward h g).
Proof.
  intros Hg Hn Hn' He.
  rewrite (DotPredictor_forward_spec g h Hg Hn).
  rewrite (DotPredictor_forward_spec g' h); [|eapply valid_graph_reverse; eassumption|congruence].
  f_equal. unfold dot_scores. rewrite He, map_map. apply map_ext.
  intros e. simpl. apply dot_comm.
Qed.

Lemma dot_predictor_ignores_direction_witness :
  fst (DotPredictor.forward H_uv (mkGraph 2 [(1, 0)] ∅ ∅))
  = fst (DotPredictor.forward H_uv g_uv).
Proof.
  apply (dot_predictor_ignores_direction g_uv (mkGraph 2 [(1, 0)] ∅ ∅) H_uv);
    reflexivity.
Defined.

Lemma DotPredictor_forward_run (h : Tensor) (g : DGLGraph) :
  fst (DotPredictor.forward h g)
  = (if nrows h =? num_nodes g
     then hu <~ index_select h (map fst (edges g)) ;
          hv <~ index_select h (map snd (edges g)) ;
          if cols hu =? cols hv
          then torch.column0
                 (mkTensor 1 (zip_with (fun a b => [dot a b]) (rows hu) (rows hv)))
          else Raise DGLError
     else Raise DGLError).
Proof.
  destruct g as [n es nd ed].
  unfold DotPredictor.forward, DotPredictor.body, local_scope, bind, set_ndata. simpl.
  destruct (nrows h =? n); [|reflexivity].
  unfold apply_edges, messages. simpl. rewrite !lookup_field_insert. simpl.
  destruct (index_select h (map fst es)) as [hu|e]; simpl; [|reflexivity].
  destruct (index_select h (map snd es)) as [hv|e]; simpl; [|reflexivity].
  destruct (cols hu =? cols hv); simpl; [|reflexivity].
  unfold get_edata. simpl. rewrite lookup_insert_eq. reflexivity.
Qed.

(** X3.  On a graph whose edges join existing nodes, for a feature
    matrix of positive width, the predictor returns scores exactly when
    the matrix has one row per node, and then one score per edge;
    otherwise it raises [DGLError].  In both cases the graph is left as
    it was. *)
Theorem dot_predictor_succeeds_iff (g : DGLGraph) (h : Tensor) :
  valid_graph g = true ->
  0 < cols h ->
  (is_ok (fst (DotPredictor.forward h g)) = true <-> nrows h = num_nodes g)
  /\ (forall s, fst (DotPredictor.forward h g) = Ok s -> length s = num_edges g)
  /\ (forall e, fst (DotPredictor.forward h g) = Raise e -> e = DGLError)
  /\ snd (DotPredictor.forward h g) = g.
Proof.
  intros Hg Hd.
  assert (Hframe : snd (DotPredictor.forward h g) = g)
    by apply local_scope_restores, DotPredictor_body_keeps.
  destruct (decide (nrows h = num_nodes g)) as [Hn|Hn].
  - rewrite (DotPredictor_forward_spec g h Hg Hn). simpl.
    split; [split; auto|]. split; [|split; [discriminate | exact Hframe]].
    intros s Hs. inversion Hs. unfold dot_scores, num_edges. apply length_map.
  - rewrite DotPredictor_forward_run.
    apply Nat.eqb_neq in Hn as Hb. rewrite Hb. simpl.
    split; [split; [discriminate | intros; contradiction]|].
    split; [discriminate|]. split; [|exact Hframe].
    intros e He. inversion He. reflexivity.
Qed.

Lemma dot_predictor_succeeds_iff_witness :
  (is_ok (fst (DotPredictor.forward X3_wide g_uv)) = true <-> nrows X3_wide = num_nodes g_uv)
  /\ (forall s, fst (DotPredictor.forward X3_wide g_uv) = Ok s -> length s = num_edges g_uv)
  /\ (forall e, fst (DotPredictor.forward X3_wide g_uv) = Raise e -> e = DGLError)
  /\ snd (DotPredictor.forward X3_wide g_uv) = g_uv.
Proof.
  apply (dot_predictor_succeeds_iff g_uv X3_wide); [reflexivity | simpl; lia].
Defined.

(** ** The model of two layers *)

Lemma shape_relu (t : Tensor) : torch.shape (torch.relu t) = torch.shape t.
Proof. unfold torch.shape, nrows, torch.relu. simpl. rewrite length_map. reflexivity. Qed.

Lemma SAGEConv_forward_shape (in_feat out_feat : nat) (W : list (list Q)) (b : list Q)
    (g : DGLGraph) (h out : Tensor) :
  valid_graph g = true ->
  fst (SAGEConv.forward (SAGEConv.init in_feat out_feat W b) h g) = Ok out ->
  torch.shape h = (num_nodes g, in_feat) /\ torch.shape out = (num_nodes g, out_feat).
Proof.
  intros Hg Hout.
  assert (Hs : torch.shape h = (num_nodes g, in_feat)).
  { apply (SAGEConv_forward_ok_iff in_feat out_feat W b g h Hg).
    rewrite Hout. reflexivity. }
  split; [exact Hs|]. unfold torch.shape in Hs.
  assert (Hn : nrows h = num_nodes g) by congruence.
  assert (Hc : cols h = in_feat) by congruence.
  rewrite SAGEConv_forward_spec in Hout; [|exact Hg|exact Hn|simpl; lia].
  inversion Hout. unfold torch.shape. rewrite nrows_combine.
  - simpl. congruence.
  - rewrite nrows_mean_of_incoming. congruence.
Qed.

Lemma Model_forward_run (self : Model.t) (x : Tensor) (g : DGLGraph) :
  Model.forward self x g
  = (h1 <~ fst (SAGEConv.forward (Model.conv1 self) x g) ;
     fst (SAGEConv.forward (Model.conv2 self) (torch.relu h1) g), g).
Proof.
  unfold Model.forward, bind, ret.
  pose proof (SAGEConv_forward_frame (Model.conv1 self) x g) as Hf1.
  destruct (SAGEConv.forward (Model.conv1 self) x g) as [[h1|e] g1];
    simpl in *; subst g1; [|reflexivity].
  pose proof (SAGEConv_forward_frame (Model.conv2 self) (torch.relu h1) g) as Hf2.
  destruct (SAGEConv.forward (Model.conv2 self) (torch.relu h1) g) as [[h2|e] g2];
    simpl in *; subst g2; reflexivity.
Qed.

(** X4.  The model of two layers, built for [in_feats] input features,
    [h_feats] hidden features and [num_classes] classes, both
    [in_feats] and [h_feats] positive, returns an output exactly when
    the feature matrix has shape (N, in_feats).
    The output is then what the second layer makes of the rectified
    (N, h_feats) output of the first, its shape is (N, num_classes),
    and the graph is left as it was. *)
Theorem model_forward_composes_layers (in_feats h_feats num_classes : nat)
    (W1 : list (list Q)) (b1 : list Q) (W2 : list (list Q)) (b2 : list Q)
    (g : DGLGraph) (x : Tensor) :
  let self := Model.init in_feats h_feats num_classes W1 b1 W2 b2 in
  0 < in_feats ->
  0 < h_feats ->
  valid_graph g = true ->
  (is_ok (fst (Model.forward self x g)) = true
   <-> torch.shape x = (num_nodes g, in_feats))
  /\ (forall out, fst (Model.forward self x g) = Ok out ->
        torch.shape out = (num_nodes g, num_classes)
        /\ snd (Model.forward self x g) = g
        /\ exists h1, fst (SAGEConv.forward (Model.conv1 self) x g) = Ok h1
                      /\ torch.shape h1 = (num_nodes g, h_feats)
                      /\ fst (SAGEConv.forward (Model.conv2 self) (torch.relu h1) g)
                         = Ok out).
Proof.
  intros self Hd Hd' Hg. rewrite Model_forward_run. simpl.
  split.
  - split.
    + intros Hok.
      destruct (SAGEConv.forward (SAGEConv.init in_feats h_feats W1 b1) x g)
        as [[h1|e] g1] eqn:E; simpl in Hok; [|discriminate].
      apply (SAGEConv_forward_ok_iff in_feats h_feats W1 b1 g x Hg).
      rewrite E. reflexivity.
    + intros Hs.
      apply (SAGEConv_forward_ok_iff in_feats h_feats W1 b1 g x Hg) in Hs.
      destruct (fst (SAGEConv.forward (SAGEConv.init in_feats h_feats W1 b1) x g))
        as [h1|e] eqn:E; simpl in Hs; [|discriminate].
      simpl.
      apply (SAGEConv_forward_ok_iff h_feats num_classes W2 b2 g _ Hg).
      rewrite shape_relu.
      apply (SAGEConv_forward_shape in_feats h_feats W1 b1 g x h1 Hg E).
  - intros out Hout.
    destruct (fst (SAGEConv.forward (SAGEConv.init in_feats h_feats W1 b1) x g))
      as [h1|e] eqn:E; simpl in Hout; [|discriminate].
    split; [|split; [reflexivity|]].
    + apply (SAGEConv_forward_shape h_feats num_classes W2 b2 g _ out Hg Hout).
    + exists h1. split; [reflexivity|]. split; [|exact Hout].
      apply (SAGEConv_forward_shape in_feats h_feats W1 b1 g x h1 Hg E).
Qed.

Lemma model_forward_composes_layers_witness :
  is_ok (fst (Model.forward
                (Model.init 2 3 2 [[1; 0; 0; 0]; [0; 1; 1; 0]; [0; 0; 0; 2]]%Q
                   [0; 1; 0]%Q [[1; 0; 0; 0; 0; 0]; [0; 0; 0; 0; 0; 1]]%Q [0; 0]%Q)
                X3 g3)) = true
  <-> torch.shape X3 = (num_nodes g3, 2).
Proof.
  apply (model_forward_composes_layers 2 3 2
           [[1; 0; 0; 0]; [0; 1; 1; 0]; [0; 0; 0; 2]]%Q [0; 1; 0]%Q
           [[1; 0; 0; 0; 0; 0]; [0; 0; 0; 0; 0; 1]]%Q [0; 0]%Q g3 X3);
    first [reflexivity | lia].
Defined.

(** ** Locality *)

Lemma SAGEConv_forward_row (self : SAGEConv.t) (g : DGLGraph) (h : Tensor) (v : nat) :
  valid_graph g = true -> nrows h = num_nodes g ->
  cols h + cols h = in_features (SAGEConv.linear self) ->
  v < num_nodes g ->
  exists out, fst (SAGEConv.forward self h g) = Ok out
    /\ rows out !! v
       = Some (affine (SAGEConv.linear self)
                 (row h v ++ mean_vec (cols h)
                                (map (fun e => row h (fst e)) (in_edges g v)))).
Proof.
  intros Hg Hn Hc Hv. eexists. split; [apply SAGEConv_forward_spec; assumption|].
  rewrite combine_lookup;
    [|lia|rewrite nrows_mean_of_incoming; exact Hv].
  pose proof (mean_of_incoming_lookup g (source_features g h) v Hv) as Hrow.
  rewrite (row_lookup _ _ _ Hrow), in_messages_source_features. reflexivity.
Qed.

(** X5.  For features of positive width, the output of the layer at a
    node depends on the feature of that node, on its incoming edges and
    on the features of their sources, and on nothing else: two graphs
    on the same nodes that give the node the same incoming edges, with
    two feature matrices that agree at the node and at these sources,
    give the same output row at the node. *)
Theorem forward_is_local (in_feat out_feat : nat) (W : list (list Q)) (b : list Q)
    (g g' : DGLGraph) (h h' : Tensor) (v : nat) :
  let self := SAGEConv.init in_feat out_feat W b in
  0 < in_feat ->
  valid_graph g = true ->
  valid_graph g' = true ->
  torch.shape h = (num_nodes g, in_feat) ->
  torch.shape h' = (num_nodes g', in_feat) ->
  v < num_nodes g ->
  v < num_nodes g' ->
  in_edges g v = in_edges g' v ->
  row h v = row h' v ->
  (forall e, e ∈ in_edges g v -> row h (fst e) = row h' (fst e)) ->
  exists out out' : Tensor,
    fst (SAGEConv.forward self h g) = Ok out
    /\ fst (SAGEConv.forward self h' g') = Ok out'
    /\ rows out !! v = rows out' !! v.
Proof.
  intros self Hd Hg Hg' Hs Hs' Hv Hv' He Hrow Hin. unfold torch.shape in *.
  assert (Hn : nrows h = num_nodes g) by congruence.
  assert (Hc : cols h = in_feat) by congruence.
  assert (Hn' : nrows h' = num_nodes g') by congruence.
  assert (Hc' : cols h' = in_feat) by congruence.
  destruct (SAGEConv_forward_row self g h v Hg Hn ltac:(simpl; lia) Hv)
    as (out & Hout & Hr).
  destruct (SAGEConv_forward_row self g' h' v Hg' Hn' ltac:(simpl; lia) Hv')
    as (out' & Hout' & Hr').
  exists out, out'. split; [exact Hout|]. split; [exact Hout'|].
  rewrite Hr, Hr', Hrow, Hc, Hc', <- He. do 4 f_equal.
  apply map_ext_in. intros e Hin'. apply Hin, list_elem_of_In, Hin'.
Qed.

Lemma forward_is_local_witness :
  exists out out' : Tensor,
    fst (SAGEConv.forward layer23 X3 g_loop) = Ok out
    /\ fst (SAGEConv.forward layer23 (mkTensor 2 [[1; 0]; [0; 0]; [5; 7]]%Q)
              (mkGraph 3 [(0, 1); (2, 2)] ∅ ∅))
       = Ok out'
    /\ rows out !! 1 = rows out' !! 1.
Proof.
  apply (forward_is_local 2 3 [[1; 0; 0; 0]; [0; 1; 1; 0]; [0; 0; 0; 2]]%Q [0; 1; 0]%Q
           g_loop (mkGraph 3 [(0, 1); (2, 2)] ∅ ∅)
           X3 (mkTensor 2 [[1; 0]; [0; 0]; [5; 7]]%Q) 1);
    try reflexivity; try (simpl; lia).
  intros e He. change (in_edges g_loop 1) with [(0, 1)] in He.
  apply list_elem_of_singleton in He. subst e. reflexivity.
Defined.

(** ** The split of the edges *)

Lemma permutation_outcome_Permutation (n : nat) (p : list nat) :
  np.permutation_outcome n p = true -> p ≡ₚ seq 0 n.
Proof.
  unfold np.permutation_outcome. intros H.
  apply andb_true_iff in H as [Hlen Hall]. apply Nat.eqb_eq in Hlen.
  symmetry. apply NoDup_Permutation_bis.
  - apply seq_NoDup.
  - rewrite length_seq. lia.
  - intros i Hi. rewrite forallb_forall in Hall. specialize (Hall i Hi).
    apply existsb_exists in Hall as (j & Hj & Heq).
    apply Nat.eqb_eq in Heq. subst j. exact Hj.
Qed.

Lemma permutation_outcome_lt (n : nat) (p : list nat) :
  np.permutation_outcome n p = true -> Forall (fun i => i < n) p.
Proof.
  intros H. apply permutation_outcome_Permutation in H.
  apply Forall_forall. intros i Hi. rewrite H in Hi.
  apply list_elem_of_In, in_seq in Hi. lia.
Qed.

Lemma permutation_outcome_length (n : nat) (p : list nat) :
  np.permutation_outcome n p = true -> length p = n.
Proof.
  unfold np.permutation_outcome. intros H.
  apply andb_true_iff in H as [Hlen _]. apply Nat.eqb_eq in Hlen. exact Hlen.
Qed.

(** The two endpoint arrays, taken at a list of edge ids, are the edges
    of these ids. *)
Lemma zip_take_edges (es : list (nat * nat)) (idx : list nat) :
  zip (np.take (map fst es) idx) (np.take (map snd es) idx)
  = map (fun i => nth i es (0, 0)) idx.
Proof.
  unfold np.take. induction idx as [|i idx IH]; simpl; [reflexivity|].
  rewrite IH. f_equal.
  pose proof (map_nth fst es (0, 0) i) as Hu.
  pose proof (map_nth snd es (0, 0) i) as Hv.
  simpl in Hu, Hv. rewrite Hu, Hv.
  destruct (nth i es (0, 0)). reflexivity.
Qed.

Lemma map_nth_seq {A} (l : list A) (d : A) :
  map (fun i => nth i l d) (seq 0 (length l)) = l.
Proof.
  apply list_eq. intros i. rewrite list_lookup_fmap.
  destruct (decide (i < length l)) as [Hi|Hi].
  - rewrite lookup_seq_lt by exact Hi. simpl.
    destruct (lookup_lt_is_Some_2 l i Hi) as [x Hx].
    rewrite Hx, nth_lookup, Hx. reflexivity.
  - rewrite lookup_seq_ge by lia. simpl. symmetry. apply lookup_ge_None. lia.
Qed.

Lemma edges_at_permutation (es : list (nat * nat)) (p : list nat) :
  np.permutation_outcome (length es) p = true ->
  map (fun i => nth i es (0, 0)) p ≡ₚ es.
Proof.
  intros H. apply permutation_outcome_Permutation in H.
  rewrite H, map_nth_seq. reflexivity.
Qed.

(** X6.  The split loses no edge and repeats none: the test positives
    followed by the training positives are the edges of the graph in
    some order.  A tenth of the edges, rounded down, are test
    positives; the others are training positives, [train_size] of
    them. *)
Theorem split_edges_partitions_edges (g : DGLGraph) (eids : list nat) :
  np.permutation_outcome (num_edges g) eids = true ->
  let s := split_edges g eids in
  zip (test_pos_u s) (test_pos_v s) ++ zip (train_pos_u s) (train_pos_v s) ≡ₚ edges g
  /\ test_size s = num_edges g / 10
  /\ length (zip (test_pos_u s) (test_pos_v s)) = test_size s
  /\ length (zip (train_pos_u s) (train_pos_v s)) = train_size s
  /\ test_size s + train_size s = num_edges g.
Proof.
  intros Hp s. unfold s, split_edges.
  cbn [test_pos_u test_pos_v train_pos_u train_pos_v test_size train_size].
  pose proof (permutation_outcome_length _ _ Hp) as Hlen.
  rewrite !zip_take_edges, Hlen.
  assert (Hle : num_edges g / 10 <= num_edges g)
    by (pose proof (Nat.Div0.mul_div_le (num_edges g) 10); lia).
  split; [|split; [reflexivity|split; [|split]]].
  - rewrite <- map_app, firstn_skipn. apply edges_at_permutation, Hp.
  - rewrite length_map, length_firstn. lia.
  - rewrite length_map, length_skipn. lia.
  - lia.
Qed.

Lemma split_edges_partitions_edges_witness :
  let s := split_edges g_loop [2; 0; 3; 1] in
  zip (test_pos_u s) (test_pos_v s) ++ zip (train_pos_u s) (train_pos_v s)
    ≡ₚ edges g_loop
  /\ test_size s = num_edges g_loop / 10
  /\ length (zip (test_pos_u s) (test_pos_v s)) = test_size s
  /\ length (zip (train_pos_u s) (train_pos_v s)) = train_size s
  /\ test_size s + train_size s = num_edges g_loop.
Proof.
  apply (split_edges_partitions_edges g_loop [2; 0; 3; 1]). reflexivity.
Defined.

(** ** The training graph *)

Lemma keep_rows_nth_from {A} (F : list nat) (l : list A) (d : A) (s : nat) :
  map snd (filter (fun ix : nat * A => fst ix ∉ F) (zip (seq s (length l)) l))
  = map (fun i => nth (i - s) l d) (filter (fun i => i ∉ F) (seq s (length l))).
Proof.
  revert s. induction l as [|x l IH]; intros s; simpl; [reflexivity|].
  assert (Htail : map (fun i => nth (i - S s) l d)
                    (filter (fun i => i ∉ F) (seq (S s) (length l)))
                  = map (fun i => nth (i - s) (x :: l) d)
                      (filter (fun i => i ∉ F) (seq (S s) (length l)))).
  { apply map_ext_in. intros i Hi.
    apply list_elem_of_In, list_elem_of_filter in Hi as [_ Hi].
    apply list_elem_of_In, in_seq in Hi.
    replace (i - s) with (S (i - S s)) by lia. reflexivity. }
  destruct (decide (s ∉ F)) as [Hs|Hs].
  - rewrite !filter_cons_True by (simpl; exact Hs). simpl.
    rewrite Nat.sub_diag. f_equal. rewrite IH. exact Htail.
  - rewrite !filter_cons_False by (simpl; exact Hs).
    rewrite IH. exact Htail.
Qed.

Lemma keep_rows_nth {A} (F : list nat) (l : list A) (d : A) :
  keep_rows F l = map (fun i => nth i l d) (filter (fun i => i ∉ F) (seq 0 (length l))).
Proof.
  unfold keep_rows. rewrite (keep_rows_nth_from F l d 0).
  apply map_ext. intros i. rewrite Nat.sub_0_r. reflexivity.
Qed.

Lemma kept_ids_permutation (n ts : nat) (p : list nat) :
  np.permutation_outcome n p = true ->
  filter (fun i => i ∉ firstn ts p) (seq 0 n) ≡ₚ skipn ts p.
Proof.
  intros Hp. apply permutation_outcome_Permutation in Hp.
  assert (Hnd : NoDup p) by (rewrite Hp; apply NoDup_seq).
  rewrite <- (take_drop ts p) in Hnd. apply NoDup_app in Hnd as (_ & Hdisj & Hdrop).
  apply NoDup_Permutation.
  - apply NoDup_filter, NoDup_seq.
  - exact Hdrop.
  - intros i. rewrite list_elem_of_filter. split.
    + intros [Hni Hi]. rewrite <- Hp, <- (take_drop ts p) in Hi.
      apply elem_of_app in Hi as [Hi|Hi]; [contradiction | exact Hi].
    + intros Hi. split.
      * intros Hin. exact (Hdisj i Hin Hi).
      * rewrite <- Hp, <- (take_drop ts p). apply elem_of_app. right. exact Hi.
Qed.

Lemma keep_rows_subset {A} (F : list nat) (l : list A) (x : A) :
  x ∈ keep_rows F l -> x ∈ l.
Proof.
  unfold keep_rows. intros H.
  apply list_elem_of_fmap in H as ([i y] & -> & H).
  apply list_elem_of_filter in H as [_ H]. simpl.
  eapply elem_of_zip_r in H. exact H.
Qed.

(** X7.  The training graph has the nodes and the node features of
    the graph, and its edges are the training positives, in some
    order: none of the test positives is left in it, and it has
    [train_size] edges.  Its edges join existing nodes if those of the
    graph do. *)
Theorem train_graph_holds_training_positives (g : DGLGraph) (eids : list nat) :
  np.permutation_outcome (num_edges g) eids = true ->
  let s := split_edges g eids in
  exists train_g : DGLGraph,
    train_graph g eids = Ok train_g
    /\ num_nodes train_g = num_nodes g
    /\ ndata train_g = ndata g
    /\ edges train_g ≡ₚ zip (train_pos_u s) (train_pos_v s)
    /\ num_edges train_g = train_size s
    /\ (valid_graph g = true -> valid_graph train_g = true).
Proof.
  intros Hp s. unfold train_graph, dgl.remove_edges.
  pose proof (permutation_outcome_length _ _ Hp) as Hlen.
  assert (Hin : forallb (fun i => i <? num_edges g) (firstn (length eids / 10) eids) = true).
  { assert (Hlt : Forall (fun i => i < num_edges g) (firstn (length eids / 10) eids))
      by (apply Forall_take, permutation_outcome_lt, Hp).
    rewrite Forall_forall in Hlt.
    apply forallb_forall. intros i Hi. apply Nat.ltb_lt, Hlt, list_elem_of_In, Hi. }
  rewrite Hin. eexists. split; [reflexivity|].
  cbn [num_nodes ndata edges].
  assert (Hperm : keep_rows (firstn (length eids / 10) eids) (edges g)
                  ≡ₚ zip (train_pos_u s) (train_pos_v s)).
  { unfold s, split_edges. cbn [train_pos_u train_pos_v].
    rewrite zip_take_edges, (keep_rows_nth _ _ (0, 0)).
    apply Permutation_map. apply kept_ids_permutation. exact Hp. }
  split; [reflexivity|]. split; [reflexivity|]. split; [exact Hperm|]. split.
  - unfold num_edges at 1. cbn [edges]. rewrite Hperm.
    unfold s, split_edges. cbn [train_pos_u train_pos_v train_size].
    rewrite zip_take_edges, length_map, length_skipn, Hlen. reflexivity.
  - intros Hg. apply valid_graph_Forall. simpl.
    apply valid_graph_Forall in Hg. rewrite Forall_forall in Hg.
    apply Forall_forall. intros e He. apply Hg. eapply keep_rows_subset, He.
Qed.

Lemma train_graph_holds_training_positives_witness :
  let s := split_edges g_loop [2; 0; 3; 1] in
  exists train_g : DGLGraph,
    train_graph g_loop [2; 0; 3; 1] = Ok train_g
    /\ num_nodes train_g = num_nodes g_loop
    /\ ndata train_g = ndata g_loop
    /\ edges train_g ≡ₚ zip (train_pos_u s) (train_pos_v s)
    /\ num_edges train_g = train_size s
    /\ (valid_graph g_loop = true -> valid_graph train_g = true).
Proof.
  apply (train_graph_holds_training_positives g_loop [2; 0; 3; 1]). reflexivity.
Defined.

(** ** The graphs of node pairs *)

Lemma graph_ok (u v : list nat) (n : nat) :
  length u = length v ->
  Forall (fun i => i < n) u -> Forall (fun i => i < n) v ->
  dgl.graph u v n = Ok (mkGraph n (zip u v) ∅ ∅).
Proof.
  intros Hlen Hu Hv. unfold dgl.graph. rewrite Hlen, Nat.eqb_refl. simpl.
  assert (H : forallb (fun i => i <? n) (u ++ v) = true).
  { apply forallb_forall. intros i Hi. apply Nat.ltb_lt.
    apply in_app_or in Hi as [Hi|Hi]; apply list_elem_of_In in Hi.
    - rewrite Forall_forall in Hu. apply Hu, Hi.
    - rewrite Forall_forall in Hv. apply Hv, Hi. }
  rewrite H. reflexivity.
Qed.

Lemma take_Forall (P : nat -> Prop) (a idx : list nat) :
  Forall P a -> Forall (fun i => i < length a) idx -> Forall P (np.take a idx).
Proof.
  intros Ha Hidx. unfold np.take. rewrite Forall_map.
  eapply Forall_impl; [exact Hidx|]. simpl. intros i Hi.
  rewrite Forall_forall in Ha. apply Ha, list_elem_of_In, nth_In, Hi.
Qed.

Lemma length_take (a idx : list nat) : length (np.take a idx) = length idx.
Proof. unfold np.take. apply length_map. Qed.

Lemma max_list_lt (l : list nat) (n : nat) :
  l <> [] -> Forall (fun i => i < n) l -> S (max_list l) <= n.
Proof.
  intros Hne Hl. apply max_list_elem_of in Hne.
  rewrite Forall_forall in Hl. apply Hl in Hne. lia.
Qed.

(** The candidate negative edges of a graph whose edges join existing
    nodes are pairs of existing nodes. *)
Lemma negative_edges_in_range (g : DGLGraph) (nu nv : list nat) :
  valid_graph g = true ->
  negative_edges g = Ok (nu, nv) ->
  length nu = length nv
  /\ Forall (fun i => i < num_nodes g) nu
  /\ Forall (fun i => i < num_nodes g) nv.
Proof.
  intros Hg H. apply valid_graph_Forall in Hg.
  unfold negative_edges, np.coo_todense in H.
  destruct (map fst (edges g)) as [|u0 us] eqn:Eu; [discriminate|].
  rewrite <- Eu in H. simpl in H. unfold np.sub in H. simpl in H.
  assert (Hr : S (max_list (map fst (edges g))) <= num_nodes g).
  { apply max_list_lt; [rewrite Eu; discriminate|].
    rewrite Forall_map. eapply Forall_impl; [exact Hg|]. simpl. tauto. }
  assert (Hc : S (max_list (map snd (edges g))) <= num_nodes g).
  { apply max_list_lt.
    - destruct (edges g); [discriminate Eu | discriminate].
    - rewrite Forall_map. eapply Forall_impl; [exact Hg|]. simpl. tauto. }
  destruct (np.bdim (S (max_list (map fst (edges g)))) (num_nodes g)) as [r|] eqn:Er;
    [|discriminate].
  destruct (np.bdim (S (max_list (map snd (edges g)))) (num_nodes g)) as [c|] eqn:Ec;
    [|discriminate].
  assert (Hbd : forall x y, 1 <= x <= num_nodes g ->
                  np.bdim x (num_nodes g) = Some y -> y = num_nodes g).
  { intros x y Hx Hb. unfold np.bdim in Hb.
    destruct (x =? num_nodes g) eqn:E1;
      [apply Nat.eqb_eq in E1; inversion Hb; lia|].
    destruct (x =? 1) eqn:E2; [inversion Hb; reflexivity|].
    destruct (num_nodes g =? 1) eqn:E3; [|discriminate].
    apply Nat.eqb_eq in E3. apply Nat.eqb_neq in E2. lia. }
  apply Hbd in Er; [|lia]. apply Hbd in Ec; [|lia]. subst r c.
  inversion H as [[Hnu Hnv]]. clear H.
  split; [rewrite !length_map; reflexivity|].
  split; rewrite Forall_map; apply Forall_forall; intros [i j] Hij;
    apply nonzero_elem in Hij as (Hi & Hj & _); simpl in *; assumption.
Qed.

(** X8.  From a graph whose edges join existing nodes, the split of its
    edges and the sampled negative pairs, the four graphs of node pairs
    are built without error, on the nodes of the graph: their edges
    are the training positives, the training negatives, the test
    positives and the test negatives, and they join existing nodes. *)
Theorem pair_graphs_are_built (g : DGLGraph) (eids outcome nu nv : list nat) :
  valid_graph g = true ->
  np.permutation_outcome (num_edges g) eids = true ->
  negative_edges g = Ok (nu, nv) ->
  np.choice_outcome (length nu) (num_edges g) outcome = true ->
  let p := split_edges g eids in
  exists (n : neg_split) (pg : pair_graphs),
    sample_negative_edges g outcome = Ok n
    /\ build_pair_graphs g p n = Ok pg
    /\ train_pos_g pg = mkGraph (num_nodes g) (zip (train_pos_u p) (train_pos_v p)) ∅ ∅
    /\ train_neg_g pg = mkGraph (num_nodes g) (zip (train_neg_u n) (train_neg_v n)) ∅ ∅
    /\ test_pos_g pg = mkGraph (num_nodes g) (zip (test_pos_u p) (test_pos_v p)) ∅ ∅
    /\ test_neg_g pg = mkGraph (num_nodes g) (zip (test_neg_u n) (test_neg_v n)) ∅ ∅
    /\ valid_graph (train_pos_g pg) = true
    /\ valid_graph (train_neg_g pg) = true
    /\ valid_graph (test_pos_g pg) = true
    /\ valid_graph (test_neg_g pg) = true.
Proof.
  intros Hg Hp Hneg Hc p.
  destruct (negative_edges_in_range g nu nv Hg Hneg) as (Hlen & Hnu & Hnv).
  apply andb_true_iff in Hc as [Hcl Hcr]. apply Nat.eqb_eq in Hcl.
  assert (Hout : Forall (fun i => i < length nu) outcome).
  { apply Forall_forall. intros i Hi. rewrite forallb_forall in Hcr.
    apply Nat.ltb_lt, Hcr, list_elem_of_In, Hi. }
  assert (Hsample : exists n, sample_negative_edges g outcome = Ok n
             /\ test_neg_u n = np.take nu (firstn (num_edges g / 10) outcome)
             /\ test_neg_v n = np.take nv (firstn (num_edges g / 10) outcome)
             /\ train_neg_u n = np.take nu (skipn (num_edges g / 10) outcome)
             /\ train_neg_v n = np.take nv (skipn (num_edges g / 10) outcome)).
  { unfold sample_negative_edges. rewrite Hneg. cbn [rbind fst snd].
    unfold np.choice.
    destruct ((length nu =? 0) && negb (num_edges g =? 0)) eqn:E.
    - apply andb_true_iff in E as [E1 E2]. apply Nat.eqb_eq in E1.
      apply negb_true_iff, Nat.eqb_neq in E2.
      destruct outcome as [|i outcome]; [simpl in Hcl; lia|].
      inversion Hout; subst. lia.
    - eexists. split; [reflexivity|]. repeat split. }
  destruct Hsample as (n & Hn & Htu & Htv & Hru & Hrv).
  pose proof (permutation_outcome_lt _ _ Hp) as Hlt.
  assert (Hsrc : Forall (fun i => i < num_nodes g) (map fst (edges g))).
  { apply valid_graph_Forall in Hg. rewrite Forall_map.
    eapply Forall_impl; [exact Hg|]. simpl. tauto. }
  assert (Hdst : Forall (fun i => i < num_nodes g) (map snd (edges g))).
  { apply valid_graph_Forall in Hg. rewrite Forall_map.
    eapply Forall_impl; [exact Hg|]. simpl. tauto. }
  assert (Hlt_u : forall idx, Forall (fun i => i < num_edges g) idx ->
                   Forall (fun i => i < length (map fst (edges g))) idx)
    by (intros idx H; rewrite length_map; exact H).
  assert (Hlt_v : forall idx, Forall (fun i => i < num_edges g) idx ->
                   Forall (fun i => i < length (map snd (edges g))) idx)
    by (intros idx H; rewrite length_map; exact H).
  assert (Hout_v : Forall (fun i => i < length nv) outcome) by (rewrite <- Hlen; exact Hout).
  exists n.
  eexists. split; [exact Hn|].
  unfold build_pair_graphs, p, split_edges.
  cbn [train_pos_u train_pos_v test_pos_u test_pos_v].
  rewrite Htu, Htv, Hru, Hrv.
  rewrite !graph_ok;
    try (rewrite !length_take; reflexivity);
    try (apply take_Forall; [assumption|]);
    try (apply Hlt_u); try (apply Hlt_v);
    try (apply Forall_take; assumption); try (apply Forall_drop; assumption).
  cbn [rbind]. split; [reflexivity|].
  cbn [train_pos_g train_neg_g test_pos_g test_neg_g].
  repeat (split; [reflexivity|]).
  repeat split;
    (eapply graph_valid, graph_ok;
     [rewrite !length_take; reflexivity
     |apply take_Forall; [assumption|]
     |apply take_Forall; [assumption|]]);
    try (apply Hlt_u); try (apply Hlt_v);
    try (apply Forall_take; assumption); try (apply Forall_drop; assumption).
Qed.

Lemma pair_graphs_are_built_witness :
  let p := split_edges g_loop [2; 0; 3; 1] in
  exists (n : neg_split) (pg : pair_graphs),
    sample_negative_edges g_loop [3; 3; 0; 0] = Ok n
    /\ build_pair_graphs g_loop p n = Ok pg
    /\ train_pos_g pg
       = mkGraph (num_nodes g_loop) (zip (train_pos_u p) (train_pos_v p)) ∅ ∅
    /\ train_neg_g pg
       = mkGraph (num_nodes g_loop) (zip (train_neg_u n) (train_neg_v n)) ∅ ∅
    /\ test_pos_g pg
       = mkGraph (num_nodes g_loop) (zip (test_pos_u p) (test_pos_v p)) ∅ ∅
    /\ test_neg_g pg
       = mkGraph (num_nodes g_loop) (zip (test_neg_u n) (test_neg_v n)) ∅ ∅
    /\ valid_graph (train_pos_g pg) = true
    /\ valid_graph (train_neg_g pg) = true
    /\ valid_graph (test_pos_g pg) = true
    /\ valid_graph (test_neg_g pg) = true.
Proof.
  apply (pair_graphs_are_built g_loop [2; 0; 3; 1] [3; 3; 0; 0] [0; 1; 2; 2] [2; 0; 1; 2]);
    vm_compute; reflexivity.
Defined.

(** ** The candidate negative edges *)

Lemma NoDup_flat_map {A B} (f : A -> list B) (l : list A) :
  NoDup l ->
  (forall x, x ∈ l -> NoDup (f x)) ->
  (forall x1 x2 y, x1 ∈ l -> x2 ∈ l -> y ∈ f x1 -> y ∈ f x2 -> x1 = x2) ->
  NoDup (flat_map f l).
Proof.
  induction l as [|x l IH]; intros Hnd Hf Hdisj; simpl; [constructor|].
  apply NoDup_cons in Hnd as [Hx Hnd]. apply NoDup_app. split; [|split].
  - apply Hf. left.
  - intros y Hy Hy'. apply list_elem_of_In, in_flat_map in Hy' as (x' & Hx' & Hy').
    apply list_elem_of_In in Hx', Hy'.
    assert (x = x') by (eapply (Hdisj x x' y); [left | right; exact Hx' | exact Hy | exact Hy']).
    subst x'. contradiction.
  - apply IH; [exact Hnd | |].
    + intros z Hz. apply Hf. right. exact Hz.
    + intros x1 x2 y H1 H2. apply Hdisj; right; assumption.
Qed.

Lemma nonzero_NoDup (a : np.matrix) : NoDup (np.nonzero a).
Proof.
  unfold np.nonzero. apply NoDup_flat_map.
  - apply NoDup_seq.
  - intros i _. apply NoDup_flat_map.
    + apply NoDup_seq.
    + intros j _. destruct (Z.eqb (np.entry a i j) 0); [constructor|].
      apply NoDup_singleton.
    + intros j1 j2 y _ _ H1 H2.
      destruct (Z.eqb (np.entry a i j1) 0); [inversion H1|].
      destruct (Z.eqb (np.entry a i j2) 0); [inversion H2|].
      apply list_elem_of_singleton in H1, H2. congruence.
  - intros i1 i2 y _ _ H1 H2.
    apply list_elem_of_In, in_flat_map in H1 as (j1 & _ & H1).
    apply list_elem_of_In, in_flat_map in H2 as (j2 & _ & H2).
    destruct (Z.eqb (np.entry a i1 j1) 0); [inversion H1|].
    destruct (Z.eqb (np.entry a i2 j2) 0); [inversion H2|].
    destruct H1 as [H1|[]]. destruct H2 as [H2|[]]. congruence.
Qed.

Lemma negative_edges_NoDup (g : DGLGraph) (nu nv : list nat) :
  negative_edges g = Ok (nu, nv) -> NoDup (zip nu nv).
Proof.
  unfold negative_edges. intros H.
  destruct (np.coo_todense _ _) as [adj|e]; simpl in H; [|discriminate].
  destruct (np.sub _ _) as [adj_neg|e]; simpl in H; [|discriminate].
  inversion H. rewrite zip_fst_snd. apply nonzero_NoDup.
Qed.

Lemma negative_edges_simple_iff (g : DGLGraph) (nu nv : list nat) (i j : nat) :
  S (max_list (map fst (edges g))) = num_nodes g ->
  S (max_list (map snd (edges g))) = num_nodes g ->
  NoDup (edges g) ->
  Forall (fun e => fst e <> snd e) (edges g) ->
  negative_edges g = Ok (nu, nv) ->
  (i, j) ∈ zip nu nv
  <-> i < num_nodes g /\ j < num_nodes g /\ i <> j /\ (i, j) ∉ edges g.
Proof.
  intros Hu Hv Hnd Hloop H.
  rewrite (negative_edges_elem g nu nv i j Hu Hv H).
  pose proof (multiplicity_NoDup g i j Hnd) as Hm.
  pose proof (multiplicity_pos g i j) as Hpos.
  rewrite Forall_forall in Hloop.
  split.
  - intros (Hi & Hj & Hne). split; [exact Hi|]. split; [exact Hj|].
    destruct (i =? j) eqn:E.
    + apply Nat.eqb_eq in E. subst j. exfalso.
      assert (Hin : (i, i) ∈ edges g) by (apply Hpos; lia).
      exact (Hloop _ Hin eq_refl).
    + apply Nat.eqb_neq in E. split; [exact E|].
      intros Hin. apply Hpos in Hin. lia.
  - intros (Hi & Hj & Hne & Hnin). split; [exact Hi|]. split; [exact Hj|].
    apply Nat.eqb_neq in Hne. rewrite Hne.
    assert (multiplicity g i j = 0).
    { destruct (multiplicity g i j) eqn:E; [reflexivity|].
      exfalso. apply Hnin, Hpos. lia. }
    lia.
Qed.

(** X9.  "Find all negative edges": on a graph without self-loops and
    without repeated edges, whose adjacency matrix has one row and one
    column per node, the candidate negative edges are exactly the
    pairs of two different nodes that are not an edge, each listed
    once. *)
Theorem negative_edges_are_the_non_edges (g : DGLGraph) (nu nv : list nat) :
  S (max_list (map fst (edges g))) = num_nodes g ->
  S (max_list (map snd (edges g))) = num_nodes g ->
  NoDup (edges g) ->
  Forall (fun e => fst e <> snd e) (edges g) ->
  negative_edges g = Ok (nu, nv) ->
  (forall i j, (i, j) ∈ zip nu nv
               <-> i < num_nodes g /\ j < num_nodes g /\ i <> j /\ (i, j) ∉ edges g)
  /\ NoDup (zip nu nv).
Proof.
  intros Hu Hv Hnd Hloop H. split; [|eapply negative_edges_NoDup, H].
  intros i j. apply negative_edges_simple_iff; assumption.
Qed.

Lemma negative_edges_are_the_non_edges_witness :
  (forall i j, (i, j) ∈ zip [0; 1; 2] [2; 0; 1]
               <-> i < 3 /\ j < 3 /\ i <> j /\ (i, j) ∉ [(0, 1); (1, 2); (2, 0)])
  /\ NoDup (zip [0; 1; 2] [2; 0; 1]).
Proof.
  apply (negative_edges_are_the_non_edges (mkGraph 3 [(0, 1); (1, 2); (2, 0)] ∅ ∅)
           [0; 1; 2] [2; 0; 1]).
  - reflexivity.
  - reflexivity.
  - apply (bool_decide_unpack _). vm_compute. exact I.
  - repeat constructor; simpl; lia.
  - vm_compute. reflexivity.
Defined.

(** ** Where the sampling cell fails, and how many pairs it samples *)

Lemma bdim_None (x n : nat) : x <> n -> x <> 1 -> n <> 1 -> np.bdim x n = None.
Proof.
  intros H1 H2 H3. unfold np.bdim.
  apply Nat.eqb_neq in H1, H2, H3. rewrite H1, H2, H3. reflexivity.
Qed.

(** X10.  The sampling cell raises [ValueError] on a graph without
    edges, since no shape can be inferred for the adjacency matrix; on
    a graph whose largest source id, or largest destination id, is
    neither zero nor the last node id, since the adjacency matrix
    cannot be broadcast against the identity matrix; and on a graph
    with edges of which every pair of nodes is excluded, since there
    is nothing to choose from. *)
Theorem negative_sampling_failures (g : DGLGraph) (outcome : list nat) :
  (edges g = [] -> sample_negative_edges g outcome = Raise ValueError)
  /\ (0 < max_list (map fst (edges g)) ->
      S (max_list (map fst (edges g))) < num_nodes g ->
      sample_negative_edges g outcome = Raise ValueError)
  /\ (0 < max_list (map snd (edges g)) ->
      S (max_list (map snd (edges g))) < num_nodes g ->
      sample_negative_edges g outcome = Raise ValueError)
  /\ (edges g <> [] -> negative_edges g = Ok ([], []) ->
      sample_negative_edges g outcome = Raise ValueError).
Proof.
  split; [|split; [|split]].
  - intros He. unfold sample_negative_edges, negative_edges. rewrite He. reflexivity.
  - intros H0 Hlt. unfold sample_negative_edges, negative_edges, np.coo_todense.
    destruct (map fst (edges g)) as [|u0 us] eqn:Eu; [reflexivity|].
    rewrite <- Eu in *. cbn [rbind]. unfold np.sub. cbn [np.nr np.nc np.rsub np.eye].
    rewrite bdim_None by lia. reflexivity.
  - intros H0 Hlt. unfold sample_negative_edges, negative_edges, np.coo_todense.
    destruct (map fst (edges g)) as [|u0 us] eqn:Eu; [reflexivity|].
    rewrite <- Eu in *. cbn [rbind]. unfold np.sub. cbn [np.nr np.nc np.rsub np.eye].
    rewrite (bdim_None (S (max_list (map snd (edges g))))) by lia.
    destruct (np.bdim _ _); reflexivity.
  - intros Hne Hneg. unfold sample_negative_edges. rewrite Hneg. cbn [rbind fst length].
    unfold np.choice, num_edges.
    destruct (edges g) as [|e es]; [contradiction|]. reflexivity.
Qed.

Lemma negative_sampling_failures_witness :
  sample_negative_edges (mkGraph 4 [(0, 1); (1, 2); (2, 3)] ∅ ∅) [0; 0; 0] = Raise ValueError
  /\ sample_negative_edges (mkGraph 2 [(0, 1); (1, 0)] ∅ ∅) [0; 0] = Raise ValueError.
Proof.
  split.
  - apply (proj1 (proj2 (negative_sampling_failures
                           (mkGraph 4 [(0, 1); (1, 2); (2, 3)] ∅ ∅) [0; 0; 0])));
      simpl; lia.
  - apply (proj2 (proj2 (proj2 (negative_sampling_failures
                                  (mkGraph 2 [(0, 1); (1, 0)] ∅ ∅) [0; 0]))));
      [discriminate | vm_compute; reflexivity].
Defined.

(** X11.  The cell samples as many negative pairs as there are positive
    ones, in the test set and in the training set: a tenth of the
    number of edges, rounded down, and the rest. *)
Theorem negatives_match_positives_in_number (g : DGLGraph)
    (eids outcome : list nat) (n : neg_split) :
  np.permutation_outcome (num_edges g) eids = true ->
  length outcome = num_edges g ->
  sample_negative_edges g outcome = Ok n ->
  let p := split_edges g eids in
  length (test_neg_u n) = length (test_pos_u p)
  /\ length (test_neg_v n) = length (test_pos_v p)
  /\ length (train_neg_u n) = length (train_pos_u p)
  /\ length (train_neg_v n) = length (train_pos_v p)
  /\ length (test_neg_u n) = num_edges g / 10
  /\ length (train_neg_u n) = num_edges g - num_edges g / 10.
Proof.
  intros Hp Hlen Hn p. unfold sample_negative_edges in Hn.
  destruct (negative_edges g) as [neg|e]; cbn [rbind] in Hn; [|discriminate].
  unfold np.choice in Hn.
  destruct ((length (fst neg) =? 0) && negb (num_edges g =? 0));
    cbn [rbind] in Hn; [discriminate|].
  inversion Hn. subst n. clear Hn.
  unfold p, split_edges.
  cbn [test_neg_u test_neg_v train_neg_u train_neg_v
       test_pos_u test_pos_v train_pos_u train_pos_v].
  pose proof (permutation_outcome_length _ _ Hp) as Hlen'.
  rewrite !length_take, !length_firstn, !length_skipn, Hlen, Hlen'.
  change (fst (Nat.divmod (num_edges g) 9 0 9)) with (num_edges g / 10).
  pose proof (Nat.Div0.mul_div_le (num_edges g) 10).
  repeat split; lia.
Qed.

Lemma negatives_match_positives_in_number_witness :
  exists n : neg_split,
    sample_negative_edges g_loop [3; 3; 0; 0] = Ok n
    /\ length (train_neg_u n) = length (train_pos_u (split_edges g_loop [2; 0; 3; 1])).
Proof.
  eexists. split; [vm_compute; reflexivity|].
  apply (negatives_match_positives_in_number g_loop [2; 0; 3; 1] [3; 3; 0; 0]);
    reflexivity.
Defined.

(** ** More on the user-defined functions *)

(** X12.  [mean_udf] raises [KeyError] on a batch of nodes without
    messages under 'm'.  On the group of the nodes of one in-degree,
    which is not zero, it returns under 'h_N' one row per node of the
    group, the mean of the messages of that node, which is the row
    that [fn.mean('m', 'h_N')] gives the node. *)
Theorem mean_udf_matches_builtin_mean :
  (forall nodes : NodeBatch,
      mailbox nodes !! "m"%string = None -> mean_udf nodes = Raise KeyError)
  /\ (forall (g : DGLGraph) (msgs : Tensor) (d : nat),
        nrows msgs = num_edges g ->
        0 < d ->
        exists t : Tensor,
          mean_udf (node_batch g "m" msgs d) = Ok {[ "h_N"%string := t ]}
          /\ cols t = cols msgs
          /\ rows t = map (fun v => mean_vec (cols msgs) (in_messages g (rows msgs) v))
                          (bucket g d)
          /\ rows t = map (row (reduce_mean g msgs)) (bucket g d)).
Proof.
  split.
  - intros nodes H. unfold mean_udf. rewrite H. reflexivity.
  - intros g msgs d Hrows Hd. eexists.
    split; [apply mean_udf_is_mean; assumption|].
    split; [reflexivity|]. split; [|reflexivity]. simpl.
    apply map_ext_in. intros v Hv. unfold bucket in Hv.
    apply list_elem_of_In, list_elem_of_filter in Hv as [_ Hv].
    apply list_elem_of_In, in_seq in Hv.
    rewrite (reduce_mean_spec g msgs Hrows).
    apply row_lookup, mean_of_incoming_lookup. lia.
Qed.

Lemma mean_udf_matches_builtin_mean_witness :
  exists t : Tensor,
    mean_udf (node_batch g3 "m" (source_features g3 X3) 2) = Ok {[ "h_N"%string := t ]}
    /\ cols t = 2
    /\ rows t = map (fun v => mean_vec 2 (in_messages g3 (rows (source_features g3 X3)) v))
                    (bucket g3 2)
    /\ rows t = map (row (reduce_mean g3 (source_features g3 X3))) (bucket g3 2).
Proof.
  apply (proj2 mean_udf_matches_builtin_mean g3 (source_features g3 X3) 2);
    [reflexivity | lia].
Defined.

Lemma edge_batch_src_missing (g : DGLGraph) :
  ndata g !! "h"%string = None -> src (edge_batch g) !! "h"%string = None.
Proof.
  intros H. unfold edge_batch. simpl. rewrite lookup_omap, H. reflexivity.
Qed.

(** X13.  [u_mul_e_udf] raises [KeyError] when the source features of
    the batch have no 'h' or its edge features no 'w', and
    [RuntimeError] when the two have as many rows but widths that
    differ, neither being one.  On the batch of the edges of a graph
    that stores node features 'h' of positive width and edge weights
    'w' of width one or of the width of 'h', it returns under 'm' one
    row per edge: component j of the row of an edge is component j of
    the feature of its source times the weight of the edge, its one
    weight or its weight for component j. *)
Theorem u_mul_e_udf_multiplies_by_weight :
  (forall edges : EdgeBatch,
      src edges !! "h"%string = None -> u_mul_e_udf edges = Raise KeyError)
  /\ (forall (edges : EdgeBatch) (hs : Tensor),
        src edges !! "h"%string = Some hs ->
        data edges !! "w"%string = None ->
        u_mul_e_udf edges = Raise KeyError)
  /\ (forall (edges : EdgeBatch) (hs w : Tensor),
        src edges !! "h"%string = Some hs ->
        data edges !! "w"%string = Some w ->
        nrows hs = nrows w ->
        cols hs <> cols w -> cols hs <> 1 -> cols w <> 1 ->
        u_mul_e_udf edges = Raise RuntimeError)
  /\ (forall (g : DGLGraph) (h w : Tensor),
        valid_graph g = true ->
        is_tensor h = true ->
        is_tensor w = true ->
        nrows h = num_nodes g ->
        nrows w = num_edges g ->
        0 < cols h ->
        cols w = 1 \/ cols w = cols h ->
        ndata g !! "h"%string = Some h ->
        edata g !! "w"%string = Some w ->
        exists m : Tensor,
          u_mul_e_udf (edge_batch g) = Ok {[ "m"%string := m ]}
          /\ torch.shape m = (num_edges g, cols h)
          /\ forall k e we, edges g !! k = Some e -> rows w !! k = Some we ->
               length (row m k) = cols h
               /\ forall j x, row h (fst e) !! j = Some x ->
                    row m k !! j = Some (x * weight_component we j)%Q).
Proof.
  split; [|split; [|split]].
  - intros edges H. unfold u_mul_e_udf, lookup_field. rewrite H. reflexivity.
  - intros edges hs Hh Hw. unfold u_mul_e_udf, lookup_field. rewrite Hh, Hw.
    reflexivity.
  - intros edges hs w Hh Hw Hn H1 H2 H3.
    unfold u_mul_e_udf, lookup_field. rewrite Hh, Hw. simpl.
    unfold torch.mul, torch.broadcastable.
    apply Nat.eqb_eq in Hn. rewrite Hn. simpl.
    apply Nat.eqb_neq in H1, H2, H3. rewrite H1, H2, H3. reflexivity.
  - intros g h w Hg Hh Hw Hn Hnw Hd Hb Hnd Hed.
    exists (weighted_source_features g h w). split; [|split].
    + apply u_mul_e_udf_is_u_mul_e; try assumption.
      apply broadcastable_weights, Hb.
    + unfold torch.shape. rewrite nrows_weighted_source_features by exact Hnw.
      unfold weighted_source_features. simpl.
      rewrite bwidth_weights by exact Hb. reflexivity.
    + intros k e we He Hwe.
      apply (weighted_source_features_row g h w k e we); assumption.
Qed.

Lemma u_mul_e_udf_multiplies_by_weight_witness :
  valid_graph g3_scaled = true
  /\ 0 < cols X3
  /\ exists m : Tensor,
       u_mul_e_udf (edge_batch g3_scaled) = Ok {[ "m"%string := m ]}
       /\ torch.shape m = (2, 2)
       /\ row m 0 !! 0 = Some (1 * 3)%Q
       /\ row m 1 !! 1 = Some (1 * 5)%Q.
Proof.
  assert (Hd : 0 < cols X3) by (simpl; lia).
  split; [reflexivity|]. split; [exact Hd|].
  destruct (proj2 (proj2 (proj2 u_mul_e_udf_multiplies_by_weight))
              g3_scaled X3 W3_scalar eq_refl eq_refl eq_refl eq_refl eq_refl Hd
              (or_introl eq_refl) eq_refl eq_refl)
    as (m & Hm & Hshape & Hcomp).
  exists m. split; [exact Hm|]. split; [exact Hshape|]. split.
  - apply (proj2 (Hcomp 0 (0, 1) [3%Q] eq_refl eq_refl) 0 1%Q). reflexivity.
  - apply (proj2 (Hcomp 1 (2, 1) [5%Q] eq_refl eq_refl) 1 1%Q). reflexivity.
Defined.

(** ** The predictor with two linear submodules *)

Lemma relu_rows (x : Tensor) :
  rows (torch.relu x)
  = map (map (fun v => if Qle_bool 0 v then v else 0%Q)) (rows x).
Proof. reflexivity. Qed.

(** X14.  [MLPPredictor.apply_edges], for a predictor built for
    [h_feats] features, returns a score for the edges of a batch
    exactly when the source and the destination features of the batch
    have as many rows and their widths add up to 2 * h_feats.  The
    score is then a tensor of one dimension with one entry per edge,
    computed from the features of the two endpoints of that edge
    alone.  Without 'h' among the source or the destination features
    it raises [KeyError]. *)
Theorem mlp_predictor_scores_each_edge (h_feats : nat)
    (A1 : list (list Q)) (c1 : list Q) (A2 : list (list Q)) (c2 : list Q)
    (edges : EdgeBatch) (hs hd : Tensor) :
  let self := MLPPredictor.init h_feats A1 c1 A2 c2 in
  src edges !! "h"%string = Some hs ->
  dst edges !! "h"%string = Some hd ->
  (is_ok (MLPPredictor.apply_edges self edges) = true
   <-> nrows hs = nrows hd /\ cols hs + cols hd = h_feats * 2)
  /\ (nrows hs = nrows hd -> cols hs + cols hd = h_feats * 2 ->
      MLPPredictor.apply_edges self edges
      = Ok {[ "score"%string :=
                MLPPredictor.Squeezed
                  (zip_with (mlp_score (MLPPredictor.W1 self) (MLPPredictor.W2 self))
                            (rows hs) (rows hd)) ]})
  /\ (forall e, MLPPredictor.apply_edges self edges = Raise e -> e = RuntimeError).
Proof.
  intros self Hs Hd.
  unfold MLPPredictor.apply_edges, lookup_field. rewrite Hs, Hd. cbn [rbind].
  unfold torch.cat, Linear_forward, self, MLPPredictor.init.
  cbn [MLPPredictor.W1 MLPPredictor.W2 in_features out_features].
  destruct (nrows hs =? nrows hd) eqn:En; cbn [rbind cols rows].
  - apply Nat.eqb_eq in En.
    destruct (cols hs + cols hd =? h_feats * 2) eqn:Ec; cbn [rbind cols rows torch.relu].
    + apply Nat.eqb_eq in Ec. rewrite Nat.eqb_refl. cbn [rbind is_ok].
      split; [split; [auto | reflexivity]|]. split; [|discriminate].
      intros _ _. do 2 f_equal. unfold MLPPredictor.squeeze1. cbn [cols rows].
      rewrite Nat.eqb_refl. f_equal. rewrite !map_map, map_zip_with. reflexivity.
    + apply Nat.eqb_neq in Ec. cbn [is_ok].
      split; [split; [discriminate | intros [_ ?]; contradiction]|].
      split; [intros _ ?; contradiction|].
      intros e He. inversion He. reflexivity.
  - apply Nat.eqb_neq in En. cbn [is_ok].
    split; [split; [discriminate | intros [? _]; contradiction]|].
    split; [intros ?; contradiction|].
    intros e He. inversion He. reflexivity.
Qed.

Lemma mlp_predictor_scores_each_edge_witness :
  is_ok (MLPPredictor.apply_edges
           (MLPPredictor.init 2 [[1; 0; 0; 1]; [0; 1; 1; 0]]%Q [0; 0]%Q [[1; 1]]%Q [1]%Q)
           (edge_batch g3_weighted)) = true
  <-> nrows (source_features g3 X3) = nrows (mkTensor 2 [[0; 0]; [0; 0]]%Q)
      /\ cols (source_features g3 X3) + 2 = 2 * 2.
Proof.
  apply (mlp_predictor_scores_each_edge 2 [[1; 0; 0; 1]; [0; 1; 1; 0]]%Q [0; 0]%Q
           [[1; 1]]%Q [1]%Q (edge_batch g3_weighted)
           (source_features g3 X3) (mkTensor 2 [[0; 0]; [0; 0]]%Q));
    vm_compute; reflexivity.
Defined.

(** ** The sampled negative pairs *)

Lemma sampled_pairs_are_candidates (g : DGLGraph) (outcome nu nv : list nat)
    (n : neg_split) (p : nat * nat) :
  negative_edges g = Ok (nu, nv) ->
  np.choice_outcome (length nu) (num_edges g) outcome = true ->
  sample_negative_edges g outcome = Ok n ->
  p ∈ sampled_pairs n -> p ∈ zip nu nv.
Proof.
  intros Hneg Hc Hn Hp.
  assert (Hz : exists nz : list (nat * nat), nu = map fst nz /\ nv = map snd nz).
  { unfold negative_edges in Hneg.
    destruct (np.coo_todense _ _) as [adj|e]; simpl in Hneg; [|discriminate].
    destruct (np.sub _ _) as [adj_neg|e]; simpl in Hneg; [|discriminate].
    inversion Hneg. eexists. split; reflexivity. }
  destruct Hz as (nz & -> & ->).
  apply andb_true_iff in Hc as [_ Hc]. rewrite forallb_forall in Hc.
  rewrite length_map in Hc.
  unfold sample_negative_edges in Hn. rewrite Hneg in Hn. cbn [rbind fst snd] in Hn.
  unfold np.choice in Hn.
  destruct ((length (map fst nz) =? 0) && negb (num_edges g =? 0));
    cbn [rbind] in Hn; [discriminate|].
  inversion Hn. subst n. clear Hn.
  unfold sampled_pairs in Hp. cbn [test_neg_u test_neg_v train_neg_u train_neg_v] in Hp.
  rewrite !zip_take_edges, <- map_app, firstn_skipn in Hp.
  rewrite zip_fst_snd.
  apply list_elem_of_fmap in Hp as (i & -> & Hi).
  apply list_elem_of_In, nth_In, Nat.ltb_lt, Hc, list_elem_of_In, Hi.
Qed.

(** X16.  Every sampled negative pair is one of the candidate negative
    edges.  So on a graph without self-loops and without repeated
    edges, whose adjacency matrix has one row and one column per node,
    every sampled negative pair joins two different nodes of the graph
    that no edge joins in that direction. *)
Theorem sampled_negatives_are_non_edges (g : DGLGraph) (outcome nu nv : list nat)
    (n : neg_split) :
  negative_edges g = Ok (nu, nv) ->
  np.choice_outcome (length nu) (num_edges g) outcome = true ->
  sample_negative_edges g outcome = Ok n ->
  (forall p, p ∈ sampled_pairs n -> p ∈ zip nu nv)
  /\ (S (max_list (map fst (edges g))) = num_nodes g ->
      S (max_list (map snd (edges g))) = num_nodes g ->
      NoDup (edges g) ->
      Forall (fun e => fst e <> snd e) (edges g) ->
      forall p, p ∈ sampled_pairs n ->
        fst p < num_nodes g /\ snd p < num_nodes g /\ fst p <> snd p /\ p ∉ edges g).
Proof.
  intros Hneg Hc Hn. split.
  - intros p. eapply sampled_pairs_are_candidates; eassumption.
  - intros Hu Hv Hnd Hloop [i j] Hp. simpl.
    apply (negative_edges_simple_iff g nu nv i j Hu Hv Hnd Hloop Hneg).
    eapply sampled_pairs_are_candidates; eassumption.
Qed.

Lemma sampled_negatives_are_non_edges_witness :
  (2, 1) ∈ sampled_pairs (mkNegSplit [] [] [2; 0; 0] [1; 2; 2])
  /\ 2 < 3 /\ 1 < 3 /\ 2 <> 1 /\ (2, 1) ∉ [(0, 1); (1, 2); (2, 0)].
Proof.
  assert (Hin : (2, 1) ∈ sampled_pairs (mkNegSplit [] [] [2; 0; 0] [1; 2; 2]))
    by (vm_compute; left).
  split; [exact Hin|].
  apply (proj2 (sampled_negatives_are_non_edges
                  (mkGraph 3 [(0, 1); (1, 2); (2, 0)] ∅ ∅) [2; 0; 0] [0; 1; 2] [2; 0; 1]
                  (mkNegSplit [] [] [2; 0; 0] [1; 2; 2])
                  ltac:(vm_compute; reflexivity) eq_refl ltac:(vm_compute; reflexivity))
           eq_refl eq_refl
           ltac:(apply (bool_decide_unpack _); vm_compute; exact I)
           ltac:(repeat constructor; simpl; lia)
           (2, 1) Hin).
Defined.

(** ** The weighted layer *)

Lemma is_tensor_weighted_source_features (g : DGLGraph) (h w : Tensor) :
  valid_graph g = true -> is_tensor h = true -> is_tensor w = true ->
  nrows h = num_nodes g ->
  torch.broadcastable (cols h) (cols w) = true ->
  is_tensor (weighted_source_features g h w) = true.
Proof.
  intros Hg Hh Hw Hn Hb. apply is_tensor_Forall. simpl.
  apply valid_graph_Forall in Hg. apply is_tensor_Forall in Hw.
  rewrite Forall_forall in Hg. rewrite Forall_forall in Hw.
  apply Forall_forall. intros r Hr.
  apply elem_of_lookup_zip_with in Hr as (k & e & we & -> & He & Hwe).
  apply list_elem_of_lookup_2 in He, Hwe.
  destruct (Hg e He) as [Hsrc _].
  pose proof (length_row h (fst e) Hh ltac:(lia)) as Hlen.
  pose proof (Hw we Hwe) as Hlw.
  unfold torch.mul_row, torch.bwidth, torch.broadcastable in *.
  rewrite Hlen, Hlw.
  destruct (cols h =? cols w) eqn:E1.
  - apply Nat.eqb_eq in E1. rewrite length_zip_with, Hlen, Hlw, <- E1.
    destruct (cols h =? 1); lia.
  - simpl in Hb. destruct (cols w =? 1) eqn:E2.
    + apply Nat.eqb_eq in E2. destruct we as [|s [|s' we]]; simpl in Hlw; try lia.
      rewrite length_map, Hlen.
      destruct (cols h =? 1) eqn:E3; [apply Nat.eqb_eq in E3; lia | reflexivity].
    + simpl in Hb. rewrite Hb. apply Nat.eqb_eq in Hb.
      apply Nat.eqb_neq in E2.
      destruct we as [|s [|s' we]]; simpl in Hlw; try lia.
      * destruct (row h (fst e)) as [|x [|x' r]]; simpl in Hlen; try lia. simpl. lia.
      * destruct (row h (fst e)) as [|x [|x' r]]; simpl in Hlen; try lia.
        rewrite length_map. simpl. lia.
Qed.

(** X15.  For a weighted layer built for a positive number [in_feat]
    of input features and [out_feat] output features, an (N, in_feat)
    feature matrix and edge weights of shape (E, 1) or (E, in_feat):
    component j of the message of an edge is component j of the
    feature of its source times the weight of the edge, its one weight
    or its weight for component j; the aggregated neighbour vector of
    a node is the mean of the messages on its incoming edges; the
    output has shape (N, out_feat), and its row at a node is the
    affine transform of the feature of the node followed by its
    aggregated neighbour vector, a vector of length 2 * in_feat. *)
Theorem weighted_forward_is_affine_of_concat (in_feat out_feat : nat)
    (W : list (list Q)) (b : list Q) (g : DGLGraph) (h w : Tensor) :
  let self := WeightedSAGEConv.init in_feat out_feat W b in
  0 < in_feat ->
  Linear_ok (WeightedSAGEConv.linear self) = true ->
  valid_graph g = true ->
  is_tensor h = true ->
  is_tensor w = true ->
  torch.shape h = (num_nodes g, in_feat) ->
  torch.shape w = (num_edges g, 1) \/ torch.shape w = (num_edges g, in_feat) ->
  exists m h_N out : Tensor,
    torch.shape m = (num_edges g, in_feat)
    /\ (forall k e we, edges g !! k = Some e -> rows w !! k = Some we ->
          length (row m k) = in_feat
          /\ forall j x, row h (fst e) !! j = Some x ->
               row m k !! j = Some (x * weight_component we j)%Q)
    /\ fst (WeightedSAGEConv.aggregate h w g) = Ok h_N
    /\ (forall v, v < num_nodes g ->
          rows h_N !! v = Some (mean_vec in_feat (in_messages g (rows m) v)))
    /\ fst (WeightedSAGEConv.forward self h w g) = Ok out
    /\ torch.shape out = (num_nodes g, out_feat)
    /\ is_tensor out = true
    /\ forall v, v < num_nodes g ->
         length (row h v ++ row h_N v) = 2 * in_feat
         /\ rows out !! v
            = Some (affine (WeightedSAGEConv.linear self) (row h v ++ row h_N v)).
Proof.
  intros self Hd Hl Hg Hh Hw Hs Hsw. unfold torch.shape in *.
  assert (Hn : nrows h = num_nodes g) by congruence.
  assert (Hc : cols h = in_feat) by congruence.
  assert (Hrows : nrows w = num_edges g) by (destruct Hsw; congruence).
  assert (Hk : cols w = 1 \/ cols w = cols h)
    by (destruct Hsw; [left | right]; congruence).
  assert (Hb : torch.broadcastable (cols h) (cols w) = true)
    by (apply broadcastable_weights, Hk).
  assert (Hbw : torch.bwidth (cols h) (cols w) = in_feat)
    by (rewrite bwidth_weights by exact Hk; exact Hc).
  set (m := weighted_source_features g h w).
  set (h_N := mean_of_incoming g m).
  assert (HN : nrows h_N = nrows h)
    by (unfold h_N; rewrite nrows_mean_of_incoming; congruence).
  assert (Hagg : fst (WeightedSAGEConv.aggregate h w g) = Ok h_N)
    by (apply WeightedSAGEConv_aggregate_spec; assumption).
  exists m, h_N, (combine (WeightedSAGEConv.linear self) h h_N).
  split.
  { unfold m. rewrite nrows_weighted_source_features by exact Hrows.
    unfold weighted_source_features. simpl. rewrite Hbw. reflexivity. }
  split.
  { intros k e we He Hwe. rewrite <- Hc.
    apply (weighted_source_features_row g h w k e we); assumption. }
  split; [exact Hagg|]. split.
  { intros v Hv. unfold h_N. rewrite mean_of_incoming_lookup by exact Hv.
    unfold m, weighted_source_features. simpl. rewrite Hbw. reflexivity. }
  split.
  - rewrite WeightedSAGEConv_forward_run. cbn [fst]. rewrite Hagg. cbn [rbind].
    apply cat_linear_combine; [exact HN|].
    unfold h_N, m. simpl. lia.
  - split; [unfold torch.shape; rewrite nrows_combine by exact HN; simpl; congruence|].
    split; [apply is_tensor_combine, Hl|].
    intros v Hv. split.
    + rewrite length_app, (length_row h v Hh) by lia.
      rewrite (length_row h_N v); [unfold h_N, m; simpl; lia| |lia].
      apply is_tensor_mean_of_incoming, is_tensor_weighted_source_features; assumption.
    + apply combine_lookup; lia.
Qed.

Lemma weighted_forward_is_affine_of_concat_witness :
  0 < 2
  /\ exists m h_N out : Tensor,
       row m 0 !! 0 = Some (1 * 3)%Q
       /\ row m 1 !! 1 = Some (1 * 5)%Q
       /\ fst (WeightedSAGEConv.aggregate X3 W3_scalar g3) = Ok h_N
       /\ rows h_N !! 1 = Some (mean_vec 2 (in_messages g3 (rows m) 1))
       /\ fst (WeightedSAGEConv.forward wlayer23 X3 W3_scalar g3) = Ok out
       /\ torch.shape out = (3, 3)
       /\ rows out !! 1
          = Some (affine (WeightedSAGEConv.linear wlayer23) (row X3 1 ++ row h_N 1)).
Proof.
  assert (Hd : 0 < 2) by lia.
  split; [exact Hd|].
  destruct (weighted_forward_is_affine_of_concat 2 3
              [[1; 0; 0; 0]; [0; 1; 1; 0]; [0; 0; 0; 2]]%Q [0; 1; 0]%Q g3 X3 W3_scalar
              Hd eq_refl eq_refl eq_refl eq_refl eq_refl (or_introl eq_refl))
    as (m & h_N & out & _ & Hcomp & Hagg & Hmean & Hout & Hshape & _ & Hrow).
  exists m, h_N, out.
  split; [apply (proj2 (Hcomp 0 (0, 1) [3%Q] eq_refl eq_refl) 0 1%Q); reflexivity|].
  split; [apply (proj2 (Hcomp 1 (2, 1) [5%Q] eq_refl eq_refl) 1 1%Q); reflexivity|].
  split; [exact Hagg|].
  split; [apply (Hmean 1); simpl; lia|].
  split; [exact Hout|]. split; [exact Hshape|].
  apply (Hrow 1). simpl. lia.
Defined.
